(** * mgoHelpers: a CRUD collection over a document store

    Shallow embedding of [collection.go] and [main.go].  Go code that
    locks, calls the user's factory or talks to the mgo driver is
    written as a program tree over the actions it performs; a
    sequential interpreter runs one call, and a scheduler interleaves
    several calls that share one collection. *)

From Stdlib Require Import List String Ascii Bool Arith NArith Lia.
Import ListNotations.
Open Scope string_scope.
Open Scope list_scope.

Set Implicit Arguments.
Set Warnings "-register-all".

(** ** Values of the data model *)

(** [bson.ObjectId] is a Go string type: twelve raw bytes when valid,
    the empty string when unset. *)
Definition ObjectId := string.

(** [ObjectId.Valid]: exactly twelve bytes. *)
Definition Valid (id : ObjectId) : bool := Nat.eqb (String.length id) 12.

(** Values that travel as [interface{}]: factory parameters, field
    values, [bson.M] documents, and a pointer to an entry struct (its
    identity and its declared fields). *)
Inductive Value : Type :=
| VNil
| VString (s : string)
| VInt (n : N)
| VObjectId (id : ObjectId)
| VM (m : list (string * Value))
| VStruct (id : ObjectId) (declared : list (string * Value)).

Definition Document := list (string * Value).

(** A domain entry: a struct embedding [DbEntryBase] (the [ID] field,
    tagged [bson:"_id,omitempty"]) next to its own declared fields. *)
Record DbEntry := mkEntry { ID : ObjectId; fields : Document }.

(** [MongoEntry] is an interface; its nil value is [None]. *)
Definition MongoEntry := option DbEntry.

Definition BsonID (e : DbEntry) : ObjectId := ID e.
Definition SetBsonID (e : DbEntry) (id : ObjectId) : DbEntry :=
  mkEntry id (fields e).

(** An entry passed where Go expects [interface{}]. *)
Definition asValue (e : MongoEntry) : Value :=
  match e with
  | None => VNil
  | Some x => VStruct (ID x) (fields x)
  end.

(** The errors of [main.go], the driver's sentinel [mgo.ErrNotFound],
    the error [UnmarshalJSON] builds for a rejected id, and any other
    error the store reports. *)
Inductive err : Type :=
| errNoFactoryFunc
| errBulkOpAborted
| errPanic
| ErrNotFound
| InvalidObjectId (data : string)
| StoreError (msg : string).

(** Go's [error] interface; [None] is nil. *)
Definition error := option err.

Definition params := Value.

(** What a call of the user's factory does: it returns an entry
    (possibly the nil interface) or panics. *)
Inductive panicValue : Type :=
| NilFuncCall
| NilEntryCall
| IndexOutOfRange
| UserPanic (msg : string).

Inductive FactoryResult : Type :=
| FReturn (e : MongoEntry)
| FPanic (v : panicValue).

Record MongoCollection := mkCollection {
  Collection : string;
  factoryFunc : option (params -> FactoryResult)
}.

Definition NewMongoCollection (collName : string) : MongoCollection :=
  mkCollection collName None.

Definition SetFactoryFunc (c : MongoCollection)
    (f : params -> FactoryResult) : MongoCollection :=
  mkCollection (Collection c) (Some f).

(** ** Identity parsing *)

(** The double-quote byte, 0x22. *)
Definition quote : ascii := ascii_of_nat 34.

(** [encoding/hex]'s [fromHexChar]. *)
Definition fromHexChar (c : ascii) : option N :=
  let n := N_of_ascii c in
  (if (48 <=? n) && (n <=? 57) then Some (n - 48)
   else if (97 <=? n) && (n <=? 102) then Some (n - 97 + 10)
   else if (65 <=? n) && (n <=? 70) then Some (n - 65 + 10)
   else None)%N.

Definition isHex (c : ascii) : bool :=
  match fromHexChar c with Some _ => true | None => false end.

(** [hex.Decode]: two digits per byte; [None] on a bad digit or an odd
    length. *)
Fixpoint hexDecode (src : list ascii) : option (list ascii) :=
  match src with
  | [] => Some []
  | [_] => None
  | a :: b :: rest =>
      match fromHexChar a, fromHexChar b, hexDecode rest with
      | Some x, Some y, Some r => Some (ascii_of_N (x * 16 + y) :: r)
      | _, _, _ => None
      end
  end.

Definition nullBytes : list ascii := list_ascii_of_string "null".

Definition bytesEqual (a b : list ascii) : bool :=
  if list_eq_dec ascii_dec a b then true else false.

(** [ObjectId.UnmarshalJSON] (pointer receiver) of gopkg.in/mgo.v2/bson, the
    driver library this package imports, on a receiver holding [id].
    The result is the receiver afterwards and the error.  The library's
    first branch, for extended JSON, needs [data] to start with an
    opening brace or the letter O; the only caller here passes data
    that starts with a double quote, so that branch is left out. *)
Definition UnmarshalJSON (id : ObjectId) (data : list ascii)
    : ObjectId * error :=
  if (Nat.eqb (List.length data) 2 && Ascii.eqb (nth 0 data zero) quote
        && Ascii.eqb (nth 1 data zero) quote)
     || bytesEqual data nullBytes
  then ("", None)
  else if negb (Nat.eqb (List.length data) 26)
          || negb (Ascii.eqb (nth 0 data zero) quote)
          || negb (Ascii.eqb (nth 25 data zero) quote)
  then (id, Some (InvalidObjectId (string_of_list_ascii data)))
  else
    match hexDecode (firstn 24 (skipn 1 data)) with
    | None => (id, Some (InvalidObjectId (string_of_list_ascii data)))
    | Some buf => (string_of_list_ascii buf, None)
    end.

(** [GetObjectIDFromString], given the id [bson.NewObjectId] produced
    for [b]. *)
Definition parseWith (fresh : ObjectId) (s : string) : ObjectId * error :=
  UnmarshalJSON fresh
    (quote :: list_ascii_of_string s ++ [quote]).

(** The canonical textual form of an identity: 24 hexadecimal digits. *)
Definition wellFormed (s : string) : bool :=
  Nat.eqb (String.length s) 24 && forallb isHex (list_ascii_of_string s).

(** ** Programs

    What the package does to the outside world, one action at a time. *)

Inductive MgoCall : Type :=
| MgoInsert (coll : string) (docs : list Value)
| MgoFindIdOne (coll : string) (id : string)
| MgoFindAll (coll : string)
| MgoUpdate (coll : string) (selector update : Value)
| MgoRemoveAll (coll : string) (selector : Value).

Inductive Action : Type :=
| Lock
| Unlock
| SessCopy
| SessClose
| NewObjectId
| Factory (p : params)
| Mgo (call : MgoCall).

Definition Reply (a : Action) : Type :=
  match a with
  | NewObjectId => ObjectId
  | Mgo _ => error
  | _ => unit
  end.

Inductive Prog (A : Type) : Type :=
| Ret (a : A)
| Panic (v : panicValue)
| Act (a : Action) (k : Reply a -> Prog A).

Arguments Panic {A} v.

Fixpoint bind {A B} (p : Prog A) (f : A -> Prog B) : Prog B :=
  match p with
  | Ret a => f a
  | Panic v => Panic v
  | Act a k => Act a (fun r => bind (k r) f)
  end.

Definition perform (a : Action) : Prog (Reply a) := Act a (fun r => Ret r).

Notation "x <- p ;; q" := (bind p (fun x => q))
  (at level 61, p at next level, right associativity).
Notation "' pat <- p ;; q" := (bind p (fun x => match x with pat => q end))
  (at level 61, pat pattern, p at next level, right associativity).
Notation "p ;; q" := (bind p (fun _ => q))
  (at level 61, right associativity).

(** [defer d(); body]: [d] runs when [body] returns and when it
    panics; the panic goes on afterwards. *)
Fixpoint defer {A} (body : Prog A) (d : Prog unit) : Prog A :=
  match body with
  | Ret a => d ;; Ret a
  | Panic v => d ;; Panic v
  | Act a k => Act a (fun r => defer (k r) d)
  end.

(** [defer func() { if r := recover(); r != nil { ... } }()] around
    [body]: a panic becomes the return of [h]. *)
Fixpoint deferRecover {A} (body : Prog A) (h : panicValue -> A) : Prog A :=
  match body with
  | Ret a => Ret a
  | Panic v => Ret (h v)
  | Act a k => Act a (fun r => deferRecover (k r) h)
  end.

(** ** main.go: the storage session *)

(** What a caller hands over as the [result] of [ReadAll] and
    [FindAll]: the address of a slice, which mgo's [All] requires, or
    any other value. *)
Inductive Destination : Type :=
| SliceAddress
| NotSliceAddress.

Module MongoDb.

(** [sess := db.sess.Copy(); defer sess.Close()] around one driver
    operation. *)
Definition withSession {A} (op : Prog A) : Prog A :=
  perform SessCopy ;; defer op (perform SessClose).

Definition Insert (coll : string) (v : list Value) : Prog error :=
  withSession (perform (Mgo (MgoInsert coll v))).

(** [mgo.ErrNotFound != e], on error values compared by identity. *)
Definition notErrNotFound (e : error) : bool :=
  match e with
  | Some ErrNotFound => false
  | _ => true
  end.

Definition FindById (coll : string) (id : string) : Prog bool :=
  withSession
    (e <- perform (Mgo (MgoFindIdOne coll id)) ;; Ret (notErrNotFound e)).

(** [Find(bson.M{}).All(v)]: mgo sends the query and then, in [All],
    panics on a destination that is not the address of a slice. *)
Definition FindAll (coll : string) (v : Destination) : Prog error :=
  withSession
    (e <- perform (Mgo (MgoFindAll coll)) ;;
     match v with
     | SliceAddress => Ret e
     | NotSliceAddress =>
         Panic (UserPanic "result argument must be a slice address")
     end).

Definition Update (coll : string) (id v : Value) : Prog error :=
  withSession
    (perform (Mgo (MgoUpdate coll (VM [("_id", id)]) (VM [("$set", v)])))).

Definition Remove (coll : string) (id : Value) : Prog error :=
  withSession (perform (Mgo (MgoRemoveAll coll (VM [("_id", id)])))).

Definition RemoveAll (coll : string) : Prog error :=
  withSession (perform (Mgo (MgoRemoveAll coll (VM [])))).

(** [SessExec]: the callback runs on a copy of the session, closed
    when the callback returns or panics. *)
Definition SessExec {A} (cb : Prog A) : Prog A := withSession cb.

End MongoDb.

Definition GetObjectIDFromString (s : string) : Prog (ObjectId * error) :=
  b <- perform NewObjectId ;; Ret (parseWith b s).

(** ** collection.go *)

Record EntryErrorPair := mkPair { Entry : MongoEntry; Error : error }.

Definition EntryErrorPairs := list EntryErrorPair.

Fixpoint CheckPartFail (p : EntryErrorPairs) : bool :=
  match p with
  | [] => false
  | v :: rest =>
      match Error v with
      | Some _ => true
      | None => CheckPartFail rest
      end
  end.

Definition MakeEntrySlice (p : EntryErrorPairs) : list MongoEntry :=
  map Entry p.

Definition MutexExec {A} (cb : Prog A) : Prog A :=
  perform Lock ;; defer cb (perform Unlock).

Definition insertCore (c : MongoCollection) (entries : list MongoEntry)
    : Prog error :=
  let inEntries := map asValue entries in
  MongoDb.Insert (Collection c) inEntries.

(** The call [c.factoryFunc(c, p)]: calling a nil function value
    panics; otherwise the factory runs and returns or panics.  The
    factory is taken to be a function of [p] alone that comes back at
    once: what it could do with the collection it is handed (call the
    collection again, replace its factory) is outside this model, so
    nothing below says that a call with a factory comes to an end. *)
Definition callFactory (c : MongoCollection) (p : params) : Prog MongoEntry :=
  match factoryFunc c with
  | None => Panic NilFuncCall
  | Some f =>
      perform (Factory p) ;;
      match f p with
      | FReturn e => Ret e
      | FPanic v => Panic v
      end
  end.

Definition makeOne (c : MongoCollection) (factoryFuncParam : params)
    : Prog (MongoEntry * error) :=
  match factoryFunc c with
  | None => Ret (None, Some errNoFactoryFunc)
  | Some _ =>
      entry <- callFactory c factoryFuncParam ;;
      Ret (entry, None)
  end.

(** [for _, x := range xs { s = body(s, x) }]. *)
Fixpoint rangeLoop {X S} (body : S -> X -> Prog S) (xs : list X) (s : S)
    : Prog S :=
  match xs with
  | [] => Ret s
  | x :: rest => s' <- body s x ;; rangeLoop body rest s'
  end.

Definition createCore (c : MongoCollection) (factoryFuncParamSet : list params)
    : Prog (list MongoEntry * error) :=
  entryerr <- rangeLoop
                (fun (entryerr : EntryErrorPairs) p =>
                   '(entry, eErr) <- makeOne c p ;;
                   Ret (entryerr ++ [mkPair entry eErr])%list)
                factoryFuncParamSet [] ;;
  if CheckPartFail entryerr then Ret ([], Some errBulkOpAborted)
  else
    let entries := MakeEntrySlice entryerr in
    e <- insertCore c entries ;;
    Ret (entries, e).

Definition Insert (c : MongoCollection) (entry : MongoEntry) : Prog error :=
  MutexExec (insertCore c [entry]).

Definition InsertBulk (c : MongoCollection) (entries : list MongoEntry)
    : Prog error :=
  MutexExec (insertCore c entries).

Definition Create (c : MongoCollection) (factoryFuncParams : params)
    : Prog (MongoEntry * error) :=
  '(entries, e) <- MutexExec (createCore c [factoryFuncParams]) ;;
  match e with
  | Some _ => Ret (None, e)
  | None =>
      match entries with
      | entry :: _ => Ret (entry, None)
      | [] => Panic IndexOutOfRange
      end
  end.

Definition CreateBulk (c : MongoCollection) (factoryFuncParamSet : list params)
    : Prog (list MongoEntry * error) :=
  deferRecover
    ('(entries, e) <- MutexExec (createCore c factoryFuncParamSet) ;;
     match e with
     | Some _ => Ret ([], e)
     | None => Ret (entries, None)
     end)
    (fun _ => ([], Some errPanic)).

Definition Read (c : MongoCollection) (entryID : string) : Prog bool :=
  MongoDb.FindById (Collection c) entryID.

Definition ReadAll (c : MongoCollection) (result : Destination) : Prog error :=
  deferRecover (MongoDb.FindAll (Collection c) result)
    (fun _ => Some errPanic).

Definition Update (c : MongoCollection) (entryID : string)
    (factoryFuncParam : params) : Prog (MongoEntry * error) :=
  MutexExec
    ('(b, idParseErr) <- GetObjectIDFromString entryID ;;
     match idParseErr with
     | Some _ => Ret (None, idParseErr)
     | None =>
         newEntry <- callFactory c factoryFuncParam ;;
         match newEntry with
         | None => Panic NilEntryCall
         | Some x =>
             let newEntry := Some (SetBsonID x b) in
             e <- MongoDb.Update (Collection c) (VObjectId b)
                    (asValue newEntry) ;;
             Ret (newEntry, e)
         end
     end).

Definition Delete (c : MongoCollection) (entryID : string) : Prog error :=
  MutexExec
    ('(b, idParseErr) <- GetObjectIDFromString entryID ;;
     match idParseErr with
     | Some _ => Ret idParseErr
     | None => MongoDb.Remove (Collection c) (VObjectId b)
     end).

Definition DeleteAll (c : MongoCollection) : Prog error :=
  MutexExec (MongoDb.RemoveAll (Collection c)).

(** ** One call, run to its end *)

(** The collection's mutex and the id generator's counter. *)
Record World := mkWorld { locked : bool; counter : N }.

(** What the store answers to a driver call. *)
Definition Driver := MgoCall -> error.

(** [bson.NewObjectId] packs a timestamp, machine, process and a
    three-byte counter into twelve bytes; the counter bytes are kept
    here, the other nine are zero. *)
Definition freshId (n : N) : ObjectId :=
  string_of_list_ascii
    (repeat zero 9 ++
     [ascii_of_N (n / 65536 mod 256); ascii_of_N (n / 256 mod 256);
      ascii_of_N (n mod 256)])%N%list.

(** [None]: the action cannot go on (a second [Lock] on the held
    mutex blocks for ever, [Unlock] of a free mutex is fatal). *)
Definition handle (d : Driver) (a : Action) (w : World)
    : option (Reply a * World) :=
  match a return option (Reply a * World) with
  | Lock => if locked w then None else Some (tt, mkWorld true (counter w))
  | Unlock => if locked w then Some (tt, mkWorld false (counter w)) else None
  | SessCopy => Some (tt, w)
  | SessClose => Some (tt, w)
  | NewObjectId =>
      Some (freshId (counter w), mkWorld (locked w) (counter w + 1)%N)
  | Factory _ => Some (tt, w)
  | Mgo call => Some (d call, w)
  end.

Inductive Outcome (A : Type) : Type :=
| Returns (a : A)
| Panics (v : panicValue)
| Stuck.

Arguments Panics {A} v.
Arguments Stuck {A}.

(** The actions performed in order, how the call ended, and the world
    it left. *)
Record Run (A : Type) := mkRun {
  events : list Action;
  outcome : Outcome A;
  final : World
}.

Fixpoint run {A} (d : Driver) (p : Prog A) (w : World) : Run A :=
  match p with
  | Ret a => mkRun [] (Returns a) w
  | Panic v => mkRun [] (Panics v) w
  | Act a k =>
      match handle d a w with
      | None => mkRun [] Stuck w
      | Some (r, w') =>
          let rest := run d (k r) w' in
          mkRun (a :: events rest) (outcome rest) (final rest)
      end
  end.

Definition isWrite (a : Action) : bool :=
  match a with
  | Mgo (MgoInsert _ _) | Mgo (MgoUpdate _ _ _) | Mgo (MgoRemoveAll _ _) => true
  | _ => false
  end.

Definition isFactory (a : Action) : bool :=
  match a with
  | Factory _ => true
  | _ => false
  end.

(** The storage writes among the actions of a run. *)
Definition writes (l : list Action) : list Action := filter isWrite l.

(** ** Several calls on one collection *)

Inductive MutatingCall : Type :=
| CallInsert (entry : MongoEntry)
| CallInsertBulk (entries : list MongoEntry)
| CallCreate (p : params)
| CallCreateBulk (ps : list params)
| CallUpdate (entryID : string) (p : params)
| CallDelete (entryID : string)
| CallDeleteAll.

(** A goroutine's program, its result dropped. *)
Definition task {A} (p : Prog A) : Prog unit := p ;; Ret tt.

Definition goroutine (c : MongoCollection) (call : MutatingCall) : Prog unit :=
  match call with
  | CallInsert e => task (Insert c e)
  | CallInsertBulk es => task (InsertBulk c es)
  | CallCreate p => task (Create c p)
  | CallCreateBulk ps => task (CreateBulk c ps)
  | CallUpdate id p => task (Update c id p)
  | CallDelete id => task (Delete c id)
  | CallDeleteAll => task (DeleteAll c)
  end.

(** [mutex]: the goroutine holding the collection's lock, if any. *)
Record Config := mkConfig { mutex : option nat; pool : list (Prog unit) }.

Definition start (c : MongoCollection) (calls : list MutatingCall) : Config :=
  mkConfig None (map (goroutine c) calls).

(** The mutex after goroutine [i] performs [a]; [None] when [a] cannot
    be performed now. *)
Definition mutexAfter (a : Action) (i : nat) (m : option nat)
    : option (option nat) :=
  match a, m with
  | Lock, None => Some (Some i)
  | Lock, Some _ => None
  | Unlock, Some _ => Some None
  | Unlock, None => None
  | _, _ => Some m
  end.

(** What the environment answers to each action. *)
Definition Oracle := forall a : Action, Reply a.

Fixpoint replace {X} (i : nat) (x : X) (l : list X) : list X :=
  match l, i with
  | [], _ => []
  | _ :: tl, O => x :: tl
  | h :: tl, S j => h :: replace j x tl
  end.

(** Goroutine [i] performs its next action, if it has one that can be
    performed; otherwise nothing changes. *)
Definition step (cfg : Config) (i : nat) (o : Oracle) : Config :=
  match nth_error (pool cfg) i with
  | Some (Act a k) =>
      match mutexAfter a i (mutex cfg) with
      | Some m' => mkConfig m' (replace i (k (o a)) (pool cfg))
      | None => cfg
      end
  | _ => cfg
  end.

(** A schedule picks, step after step, a goroutine and the
    environment's answers. *)
Definition Schedule := list (nat * Oracle).

Definition exec (cfg : Config) (s : Schedule) : Config :=
  fold_left (fun cf io => step cf (fst io) (snd io)) s cfg.

Definition finished {A} (p : Prog A) : bool :=
  match p with
  | Act _ _ => false
  | _ => true
  end.

(** Goroutine [i] of [cfg] is in flight: it has left its starting
    point and has not come to its end. *)
Definition inFlight (c : MongoCollection) (calls : list MutatingCall)
    (cfg : Config) (i : nat) : Prop :=
  exists call p,
    nth_error calls i = Some call /\ nth_error (pool cfg) i = Some p /\
    p <> goroutine c call /\ finished p = false.

(** ** The store's reading of an update *)

Fixpoint setField (k : string) (v : Value) (d : Document) : Document :=
  match d with
  | [] => [(k, v)]
  | (k', v') :: rest =>
      if String.eqb k k' then (k, v) :: rest else (k', v') :: setField k v rest
  end.

(** The document of an entry: [_id] is left out when empty. *)
Definition bsonOf (x : DbEntry) : Document :=
  ((if String.eqb (ID x) "" then [] else [("_id", VObjectId (ID x))])
     ++ fields x)%list.

(** MongoDB's update: a [$set] document assigns the named fields and
    keeps every other stored field; a document without operators
    replaces the stored one. *)
Definition applyUpdate (stored : Document) (update : Value) : option Document :=
  match update with
  | VM [("$set", VStruct id fs)] =>
      Some (fold_left (fun d kv => setField (fst kv) (snd kv) d)
              (bsonOf (mkEntry id fs)) stored)
  | VStruct id fs => Some (bsonOf (mkEntry id fs))
  | _ => None
  end.

(** ** Runs of composed programs *)

(** A run followed by what comes next: the next part starts in the
    world the first part left, unless the first part did not return. *)
Definition andThen {A B} (r : Run A) (next : A -> World -> Run B) : Run B :=
  match outcome r with
  | Returns a =>
      let r2 := next a (final r) in
      mkRun (events r ++ events r2) (outcome r2) (final r2)
  | Panics v => mkRun (events r) (Panics v) (final r)
  | Stuck => mkRun (events r) Stuck (final r)
  end.

(** What a deferred call adds to a run of the body: it runs after a
    return and after a panic, and its own panic takes over. *)
Definition thenDeferred {A} (d : Driver) (r : Run A) (dd : Prog unit)
    : Run A :=
  match outcome r with
  | Stuck => r
  | o =>
      let r2 := run d dd (final r) in
      mkRun (events r ++ events r2)
        (match outcome r2 with
         | Returns _ => o
         | Panics v => Panics v
         | Stuck => Stuck
         end)
        (final r2)
  end.

(** ** Bulk construction *)

Definition okPair (e : MongoEntry) : EntryErrorPair := mkPair e None.

Definition noFactoryPair (p : params) : EntryErrorPair :=
  mkPair None (Some errNoFactoryFunc).

(** The factory is installed and returns [e] for [p]. *)
Definition succeeds (c : MongoCollection) (p : params) (e : MongoEntry) : Prop :=
  exists f, factoryFunc c = Some f /\ f p = FReturn e.

(** The loop of [createCore]. *)
Definition collectPairs (c : MongoCollection) :=
  rangeLoop
    (fun (entryerr : EntryErrorPairs) p =>
       '(entry, eErr) <- makeOne c p ;;
       Ret (entryerr ++ [mkPair entry eErr])%list).

(** What [createCore] does with the pairs once the loop is over: give
    up if any pair failed, insert all entries otherwise. *)
Definition commitPairs (c : MongoCollection) (entryerr : EntryErrorPairs)
    : Prog (list MongoEntry * error) :=
  if CheckPartFail entryerr then Ret ([], Some errBulkOpAborted)
  else
    let entries := MakeEntrySlice entryerr in
    e <- insertCore c entries ;;
    Ret (entries, e).

(** A pair that carries a construction error. *)
Definition failed (v : EntryErrorPair) : Prop := Error v <> None.

(** The one insert [insertCore] issues for [es]. *)
Definition insertOf (c : MongoCollection) (es : list MongoEntry) : MgoCall :=
  MgoInsert (Collection c) (map asValue es).

(** The first value stored under [k]. *)
Fixpoint field (k : string) (d : Document) : option Value :=
  match d with
  | [] => None
  | (k', v) :: rest => if String.eqb k k' then Some v else field k rest
  end.

(** The [$set] update [MongoDb.Update] builds for an entry. *)
Definition setDocument (v : Value) : Value := VM [("$set", v)].

(** The selector [MongoDb.Update] and [MongoDb.Remove] build. *)
Definition byId (id : ObjectId) : Value := VM [("_id", VObjectId id)].

(** The driver call [Update] issues for entry [x] under identity [b]. *)
Definition updateOf (c : MongoCollection) (b : ObjectId) (x : DbEntry) : MgoCall :=
  MgoUpdate (Collection c) (byId b) (setDocument (asValue (Some (SetBsonID x b)))).

(** ** Fixtures *)

(** A store that accepts every call; used below with calls the mgo
    client can encode and send. *)
Definition quiet : Driver := fun _ => None.

(** The answer of the mgo client to a call that carries an identity
    which is not twelve bytes long: it cannot encode the call and
    returns this error without sending anything. *)
Definition refusing : Driver :=
  fun _ => Some (StoreError "ObjectIDs must be exactly 12 bytes long (got 0)").

(** A store whose connection is gone. *)
Definition unreachable : Driver := fun _ => Some (StoreError "EOF").

(** Nobody holds the lock, no id generated yet. *)
Definition idle : World := mkWorld false 0.

Definition widgets : MongoCollection := NewMongoCollection "widgets".

(** A factory that builds a widget named by its parameter. *)
Definition named : params -> FactoryResult :=
  fun p => FReturn (Some (mkEntry "" [("name", p)])).

(** A factory that panics. *)
Definition faulty : params -> FactoryResult :=
  fun _ => FPanic (UserPanic "bad parameters").

(** Twelve bytes and their canonical text. *)
Definition idA : ObjectId := "AAAAAAAAAAAA".
Definition hexA : string := "414141414141414141414141".

(** A stored widget with a field its factory does not produce. *)
Definition storedWidget : Document :=
  [("_id", VObjectId idA); ("name", VString "a"); ("stock", VInt 7)].

(** The factory's outcome when [Update] calls it: a panic of the
    factory, a call of the nil function, or a nil entry whose
    [SetBsonID] is called. *)
Definition updatePanic (c : MongoCollection) (p : params)
    : option panicValue :=
  match factoryFunc c with
  | None => Some NilFuncCall
  | Some f =>
      match f p with
      | FPanic v => Some v
      | FReturn None => Some NilEntryCall
      | FReturn (Some _) => None
      end
  end.

(** ** The shape of a locked operation *)

Definition isLock (a : Action) : bool :=
  match a with
  | Lock => true
  | _ => false
  end.

Definition isUnlock (a : Action) : bool :=
  match a with
  | Unlock => true
  | _ => false
  end.

(** A program that never touches the mutex. *)
Fixpoint lockFree {A} (p : Prog A) : Prop :=
  match p with
  | Act a k => isLock a = false /\ isUnlock a = false /\ forall r, lockFree (k r)
  | _ => True
  end.

(** A program inside the critical section: whatever it performs, it
    comes to one [Unlock], and performs nothing after it. *)
Fixpoint critical {A} (p : Prog A) : Prop :=
  match p with
  | Act a k =>
      if isUnlock a then forall r, finished (k r) = true
      else isLock a = false /\ forall r, critical (k r)
  | _ => False
  end.

(** A program that starts by taking the lock and is then inside the
    critical section. *)
Definition guarded {A} (p : Prog A) : Prop :=
  match p with
  | Act a k => isLock a = true /\ forall r, critical (k r)
  | _ => False
  end.

(** What holds of every configuration the scheduler can reach:
    a goroutine is at its starting point, or inside the critical
    section holding the mutex, or at its end. *)
Definition serialized (c : MongoCollection) (calls : list MutatingCall)
    (cfg : Config) : Prop :=
  forall i p,
    nth_error (pool cfg) i = Some p ->
    (exists call, nth_error calls i = Some call /\ p = goroutine c call) \/
    (critical p /\ mutex cfg = Some i) \/
    finished p = true.

(** An environment that accepts everything. *)
Definition calm : Oracle :=
  fun a =>
    match a return Reply a with
    | NewObjectId => freshId 0
    | Mgo _ => None
    | _ => tt
    end.

(** ** Lock actions *)

(** An action that is neither [Lock] nor [Unlock]. *)
Definition plain (a : Action) : Prop := isLock a = false /\ isUnlock a = false.

(** A factory that panics on the empty name only. *)
Definition picky : params -> FactoryResult :=
  fun p =>
    match p with
    | VString "" => FPanic (UserPanic "empty name")
    | _ => FReturn (Some (mkEntry "" [("name", p)]))
    end.

(** ** Calls one after another *)

(** The world after the calls have been made in turn by one caller
    (who goes on after a panic). *)
Fixpoint inTurn (d : Driver) (c : MongoCollection) (calls : list MutatingCall)
    (w : World) : World :=
  match calls with
  | [] => w
  | call :: rest => inTurn d c rest (final (run d (goroutine c call) w))
  end.

(** * Properties *)

(** ** Identity parsing *)

Section Parsing.

Lemma length_list_ascii (s : string) :
  List.length (list_ascii_of_string s) = String.length s.
Proof. induction s as [|ch s IH]; simpl; congruence. Qed.

Lemma length_of_list_ascii (l : list ascii) :
  String.length (string_of_list_ascii l) = List.length l.
Proof. induction l as [|ch l IH]; simpl; congruence. Qed.

Lemma Valid_freshId (n : N) : Valid (freshId n) = true.
Proof. unfold Valid, freshId. rewrite length_of_list_ascii. reflexivity. Qed.

(** Induction two elements at a time, the way [hexDecode] consumes
    its input. *)
Lemma pair_induction {X} (P : list X -> Prop) :
  P [] -> (forall a, P [a]) ->
  (forall a b l, P l -> P (a :: b :: l)) ->
  forall l, P l.
Proof.
  intros Hnil Hone Hstep.
  assert (H : forall l, P l /\ forall a, P (a :: l)).
  { induction l as [|x l [IH1 IH2]]; split; auto. }
  intro l. apply H.
Qed.

Lemma hexDecode_all_hex (l : list ascii) :
  hexDecode l <> None -> forallb isHex l = true.
Proof.
  induction l as [| a | a b l IH] using pair_induction; simpl.
  - reflexivity.
  - intro H. exfalso. now apply H.
  - unfold isHex.
    destruct (fromHexChar a); [|intro H; exfalso; now apply H].
    destruct (fromHexChar b); [|intro H; exfalso; now apply H].
    destruct (hexDecode l); [|intro H; exfalso; now apply H].
    intros _. simpl. apply IH. discriminate.
Qed.

Lemma hexDecode_length (l : list ascii) :
  forallb isHex l = true -> Nat.even (List.length l) = true ->
  exists buf, hexDecode l = Some buf /\ 2 * List.length buf = List.length l.
Proof.
  induction l as [| a | a b l IH] using pair_induction.
  - intros _ _. exists []. auto.
  - intros _ H. discriminate H.
  - cbn [forallb List.length hexDecode]. unfold isHex at 1 2.
    destruct (fromHexChar a) as [x|]; [|discriminate].
    destruct (fromHexChar b) as [y|]; [|discriminate].
    cbn [andb]. intros Hhex Heven.
    destruct (IH Hhex Heven) as (buf & -> & Hlen).
    eexists. split; [reflexivity|]. simpl. lia.
Qed.

Lemma nullBytes_not_quoted (l : list ascii) :
  bytesEqual (quote :: l) nullBytes = false.
Proof.
  unfold bytesEqual.
  destruct (list_eq_dec ascii_dec (quote :: l) nullBytes) as [E|]; auto.
  discriminate E.
Qed.

Lemma nth_quoted (l : list ascii) :
  nth (S (List.length l)) (quote :: l ++ [quote]) zero = quote.
Proof. simpl. rewrite app_nth2, Nat.sub_diag by lia. reflexivity. Qed.

(** The empty string is taken for the empty identity, without error. *)
Lemma parseWith_empty (fresh : ObjectId) : parseWith fresh "" = ("", None).
Proof. reflexivity. Qed.

Lemma parseWith_wellFormed (fresh : ObjectId) (s : string) :
  wellFormed s = true ->
  exists id, parseWith fresh s = (id, None) /\ Valid id = true.
Proof.
  unfold wellFormed. rewrite <- length_list_ascii.
  intros [Hlen Hhex]%andb_prop. apply Nat.eqb_eq in Hlen.
  unfold parseWith, UnmarshalJSON.
  set (l := list_ascii_of_string s) in *.
  rewrite nullBytes_not_quoted.
  assert (Hd : List.length (quote :: l ++ [quote]) = 26)
    by (simpl; rewrite length_app; simpl; lia).
  rewrite Hd. cbn [Nat.eqb andb orb negb].
  replace 25 with (S (List.length l)) by lia. rewrite nth_quoted.
  cbn [nth skipn]. replace 24 with (List.length l + 0) by lia.
  rewrite firstn_app_2. cbn [firstn]. rewrite app_nil_r.
  destruct (hexDecode_length l Hhex) as (buf & -> & Hbuf).
  { rewrite Hlen. reflexivity. }
  exists (string_of_list_ascii buf). split; [reflexivity|].
  unfold Valid. rewrite length_of_list_ascii. apply Nat.eqb_eq. lia.
Qed.

Lemma parseWith_malformed (fresh : ObjectId) (s : string) :
  wellFormed s = false -> s <> "" ->
  exists data, parseWith fresh s = (fresh, Some (InvalidObjectId data)).
Proof.
  unfold wellFormed. rewrite <- length_list_ascii. intros Hwf Hne.
  unfold parseWith, UnmarshalJSON.
  set (l := list_ascii_of_string s) in *.
  rewrite nullBytes_not_quoted.
  assert (Hd : List.length (quote :: l ++ [quote]) = S (S (List.length l)))
    by (simpl; rewrite length_app; simpl; lia).
  rewrite Hd.
  assert (Hl : List.length l <> 0).
  { subst l. destruct s; [now contradiction Hne | discriminate]. }
  replace (Nat.eqb (S (S (List.length l))) 2) with false
    by (symmetry; apply Nat.eqb_neq; lia).
  cbn [andb orb].
  destruct (Nat.eqb (List.length l) 24) eqn:Hlen.
  - apply Nat.eqb_eq in Hlen. rewrite Hlen. cbn [Nat.eqb negb orb].
    replace 25 with (S (List.length l)) by lia. rewrite nth_quoted.
    cbn [nth skipn]. replace 24 with (List.length l + 0) by lia.
    rewrite firstn_app_2. cbn [firstn]. rewrite app_nil_r.
    rewrite Ascii.eqb_refl. cbn [negb orb].
    destruct (hexDecode l) eqn:Hdec; [|eauto].
    rewrite hexDecode_all_hex in Hwf by congruence. discriminate Hwf.
  - change (Nat.eqb (S (S (List.length l))) 26)
      with (Nat.eqb (List.length l) 24).
    rewrite Hlen. cbn [negb orb]. eauto.
Qed.

Example parse_hexA : parseWith "" hexA = (idA, None).
Proof. reflexivity. Qed.

Example parse_uppercase :
  parseWith "" "4A4a4B4b4C4c4D4d4E4e4F4f" = ("JJKKLLMMNNOO", None).
Proof. reflexivity. Qed.

Example parse_short : snd (parseWith idA "4141") <> None.
Proof. discriminate. Qed.

Example parse_not_hex :
  parseWith idA "41414141414141414141414g"
  = (idA, Some (InvalidObjectId (String quote
                                   ("41414141414141414141414g" ++
                                    String quote "")))).
Proof. reflexivity. Qed.

End Parsing.

(** ** Running composed programs *)

Section Running.

Variable d : Driver.

Lemma run_bind {A B} (p : Prog A) (f : A -> Prog B) (w : World) :
  run d (bind p f) w = andThen (run d p w) (fun a w' => run d (f a) w').
Proof.
  revert w. induction p as [a | v | a k IH]; intro w; simpl.
  - unfold andThen. simpl. now destruct (run d (f a) w).
  - reflexivity.
  - destruct (handle d a w) as [[r w']|]; [|reflexivity].
    rewrite IH. unfold andThen. simpl.
    now destruct (outcome (run d (k r) w')).
Qed.

Lemma run_perform (a : Action) (w : World) :
  run d (perform a) w =
  match handle d a w with
  | Some (r, w') => mkRun [a] (Returns r) w'
  | None => mkRun [] Stuck w
  end.
Proof. simpl. now destruct (handle d a w) as [[r w']|]. Qed.

Lemma run_defer {A} (body : Prog A) (dd : Prog unit) (w : World) :
  run d (defer body dd) w = thenDeferred d (run d body w) dd.
Proof.
  revert w. induction body as [x | v | b kb IH]; intro w; simpl.
  - rewrite run_bind. unfold andThen, thenDeferred. simpl.
    destruct (outcome (run d dd w)); simpl; now rewrite ?app_nil_r.
  - rewrite run_bind. unfold andThen, thenDeferred. simpl.
    destruct (outcome (run d dd w)); simpl; now rewrite ?app_nil_r.
  - destruct (handle d b w) as [[r w']|]; [|reflexivity].
    rewrite IH. unfold thenDeferred. simpl.
    destruct (outcome (run d (kb r) w')) eqn:E; simpl; now rewrite ?E.
Qed.

Lemma run_deferRecover {A} (body : Prog A) (h : panicValue -> A) (w : World) :
  run d (deferRecover body h) w =
  let r := run d body w in
  mkRun (events r)
    (match outcome r with
     | Panics v => Returns (h v)
     | o => o
     end)
    (final r).
Proof.
  revert w. induction body as [x | v | b kb IH]; intro w; simpl; auto.
  destruct (handle d b w) as [[r w']|]; [|reflexivity].
  rewrite IH. reflexivity.
Qed.

End Running.

(** ** The construction loop *)

Section Bulk.

Variable d : Driver.
Variable c : MongoCollection.

Lemma CheckPartFail_app (p q : EntryErrorPairs) :
  CheckPartFail (p ++ q) = CheckPartFail p || CheckPartFail q.
Proof.
  induction p as [|v p IH]; simpl; auto. now destruct (Error v).
Qed.

(** The check reports a failure exactly when some pair carries an
    error. *)
Lemma CheckPartFail_spec (p : EntryErrorPairs) :
  CheckPartFail p = true <-> Exists (fun v => Error v <> None) p.
Proof.
  induction p as [|v p IH]; simpl.
  - split; [discriminate | intro H; inversion H].
  - destruct (Error v) eqn:E.
    + split; auto. intros _. left. congruence.
    + rewrite IH. split; intro H; [now right|].
      inversion H; subst; [congruence | assumption].
Qed.

Lemma CheckPartFail_ok (es : list MongoEntry) :
  CheckPartFail (map okPair es) = false.
Proof. induction es; simpl; auto. Qed.

Lemma MakeEntrySlice_ok (es : list MongoEntry) :
  MakeEntrySlice (map okPair es) = es.
Proof.
  unfold MakeEntrySlice. rewrite map_map. simpl. apply map_id.
Qed.

Lemma makeOne_no_factory (p : params) :
  factoryFunc c = None -> makeOne c p = Ret (None, Some errNoFactoryFunc).
Proof. unfold makeOne. now intros ->. Qed.

Lemma makeOne_factory f (p : params) :
  factoryFunc c = Some f ->
  makeOne c p =
  Act (Factory p)
    (fun _ => match f p with
              | FReturn e => Ret (e, None)
              | FPanic v => Panic v
              end).
Proof.
  unfold makeOne, callFactory. intros ->. simpl. now destruct (f p).
Qed.

(** Without a factory the loop performs nothing and pairs every
    parameter with the missing-factory error. *)
Lemma collectPairs_no_factory (ps : list params) (acc : EntryErrorPairs) :
  factoryFunc c = None ->
  collectPairs c ps acc = Ret (acc ++ map noFactoryPair ps)%list.
Proof.
  intro Hf. unfold collectPairs. revert acc.
  induction ps as [|p ps IH]; intro acc; simpl.
  - now rewrite app_nil_r.
  - rewrite makeOne_no_factory by assumption. simpl.
    rewrite IH, <- app_assoc. reflexivity.
Qed.

(** With a factory the loop only calls the factory: it writes
    nothing, leaves the world as it was, and either every call
    returned, in order, or one of them panicked. *)
Lemma collectPairs_factory f (ps : list params) (acc : EntryErrorPairs)
    (w : World) :
  factoryFunc c = Some f ->
  let r := run d (collectPairs c ps acc) w in
  final r = w /\ Forall (fun a => isFactory a = true) (events r) /\
  ((exists es, Forall2 (succeeds c) ps es /\
               outcome r = Returns (acc ++ map okPair es)%list /\
               events r = map Factory ps)
   \/ (exists v, outcome r = Panics v)).
Proof.
  intro Hf. unfold collectPairs. revert acc.
  induction ps as [|p ps IH]; intro acc.
  - simpl. repeat split; auto. left. exists []. simpl.
    rewrite app_nil_r. auto.
  - cbn [rangeLoop]. rewrite (makeOne_factory p Hf).
    simpl. destruct (f p) as [e|v] eqn:Hp; simpl.
    + destruct (IH (acc ++ [mkPair e None])) as (Hw & Hev & Hout).
      repeat split; auto.
      destruct Hout as [(es & Hes & Ho & He) | (v & Hv)]; [left | right; eauto].
      exists (e :: es). repeat split.
      * constructor; [exists f; auto | assumption].
      * rewrite Ho, <- app_assoc. reflexivity.
      * now rewrite He.
    + repeat split; auto. right. eauto.
Qed.

Lemma run_collectPairs_ok (ps : list params) (es : list MongoEntry)
    (acc : EntryErrorPairs) (w : World) :
  Forall2 (succeeds c) ps es ->
  run d (collectPairs c ps acc) w =
  mkRun (map Factory ps) (Returns (acc ++ map okPair es)) w.
Proof.
  intro Hall. unfold collectPairs. revert acc.
  induction Hall as [|p e ps es (f & Hf & Hp) _ IH]; intro acc; simpl.
  - now rewrite app_nil_r.
  - rewrite (makeOne_factory p Hf). simpl. rewrite Hp. simpl.
    rewrite IH, <- app_assoc. reflexivity.
Qed.

End Bulk.

(** ** Runs of the create family *)

Section CreateRuns.

Variable d : Driver.
Variable c : MongoCollection.

Lemma run_insertCore (es : list MongoEntry) (w : World) :
  run d (insertCore c es) w =
  mkRun [SessCopy; Mgo (insertOf c es); SessClose]
    (Returns (d (insertOf c es))) w.
Proof. reflexivity. Qed.

Lemma run_MutexExec {A} (cb : Prog A) (w : World) :
  locked w = false ->
  run d (MutexExec cb) w =
  let r := thenDeferred d (run d cb (mkWorld true (counter w)))
             (perform Unlock) in
  mkRun (Lock :: events r) (outcome r) (final r).
Proof.
  intro Hw. unfold MutexExec. simpl. rewrite Hw, run_defer. reflexivity.
Qed.

Lemma createCore_unfold (ps : list params) :
  createCore c ps =
  (entryerr <- collectPairs c ps [] ;;
   if CheckPartFail entryerr then Ret ([], Some errBulkOpAborted)
   else
     e <- insertCore c (MakeEntrySlice entryerr) ;;
     Ret (MakeEntrySlice entryerr, e)).
Proof. reflexivity. Qed.

(** No factory and something to build: the bulk is given up before
    anything is performed. *)
Lemma run_createCore_no_factory (ps : list params) (w : World) :
  factoryFunc c = None -> ps <> [] ->
  run d (createCore c ps) w = mkRun [] (Returns ([], Some errBulkOpAborted)) w.
Proof.
  intros Hf Hps. rewrite createCore_unfold.
  rewrite collectPairs_no_factory by assumption.
  destruct ps as [|p ps]; [now contradiction Hps | reflexivity].
Qed.

(** Every construction returned: one insert of all entries follows
    the factory calls. *)
Lemma run_createCore_ok (ps : list params) (es : list MongoEntry) (w : World) :
  Forall2 (succeeds c) ps es ->
  run d (createCore c ps) w =
  mkRun (map Factory ps ++ [SessCopy; Mgo (insertOf c es); SessClose])
    (Returns (es, d (insertOf c es))) w.
Proof.
  intro Hall. rewrite createCore_unfold, run_bind.
  rewrite (run_collectPairs_ok d [] w Hall). unfold andThen. simpl.
  rewrite CheckPartFail_ok, MakeEntrySlice_ok. reflexivity.
Qed.

(** In every case [createCore] leaves the world as it found it, and
    what it writes is one insert of entries the factory returned. *)
Lemma run_createCore_cases (ps : list params) (w : World) :
  let r := run d (createCore c ps) w in
  final r = w /\
  ((exists es, Forall2 (succeeds c) ps es /\
               r = mkRun (map Factory ps ++
                          [SessCopy; Mgo (insertOf c es); SessClose])
                     (Returns (es, d (insertOf c es))) w)
   \/ (writes (events r) = [] /\
       (outcome r = Returns ([], Some errBulkOpAborted) \/
        exists v, outcome r = Panics v))).
Proof.
  destruct (factoryFunc c) as [f|] eqn:Hf.
  - destruct (collectPairs_factory d c ps [] w Hf)
      as (Hw & Hev & [(es & Hes & Ho & He) | (v & Hv)]).
    + rewrite (run_createCore_ok w Hes). simpl. split; auto.
      left. exists es. auto.
    + simpl. rewrite createCore_unfold, run_bind. unfold andThen.
      rewrite Hv. simpl. split; [assumption|]. right. split; [|eauto].
      unfold writes. induction Hev as [|a l Ha _ IH]; simpl; auto.
      destruct a; try discriminate Ha. simpl. assumption.
  - destruct ps as [|p ps].
    + rewrite (@run_createCore_ok [] [] w) by constructor. simpl.
      split; auto. left. exists []. split; [constructor | reflexivity].
    + rewrite run_createCore_no_factory by (auto; discriminate).
      simpl. auto.
Qed.

End CreateRuns.

Section CreateFamily.

Variable d : Driver.
Variable c : MongoCollection.

Lemma world_eta (w : World) :
  locked w = false -> mkWorld false (counter w) = w.
Proof. destruct w; simpl; now intros ->. Qed.

Lemma writes_factory_calls (ps : list params) :
  writes (map Factory ps) = [].
Proof. induction ps; simpl; auto. Qed.

Lemma run_CreateBulk_ok (ps : list params) (es : list MongoEntry) (w : World) :
  locked w = false -> Forall2 (succeeds c) ps es ->
  run d (CreateBulk c ps) w =
  mkRun (Lock :: map Factory ps ++
         [SessCopy; Mgo (insertOf c es); SessClose; Unlock])
    (Returns (match d (insertOf c es) with
              | None => (es, None)
              | Some e => ([], Some e)
              end))
    w.
Proof.
  intros Hw Hall. unfold CreateBulk.
  rewrite run_deferRecover, run_bind, run_MutexExec by assumption.
  rewrite (run_createCore_ok d _ Hall). unfold thenDeferred, andThen. simpl.
  rewrite (world_eta w Hw).
  destruct (d (insertOf c es)); simpl;
    rewrite ?app_nil_r, <- (app_assoc (map Factory ps)); reflexivity.
Qed.

Lemma run_CreateBulk_no_factory (ps : list params) (w : World) :
  locked w = false -> factoryFunc c = None -> ps <> [] ->
  run d (CreateBulk c ps) w =
  mkRun [Lock; Unlock] (Returns ([], Some errBulkOpAborted)) w.
Proof.
  intros Hw Hf Hps. unfold CreateBulk.
  rewrite run_deferRecover, run_bind, run_MutexExec by assumption.
  rewrite run_createCore_no_factory by assumption.
  unfold thenDeferred, andThen. simpl. now rewrite (world_eta w Hw).
Qed.

Lemma run_Create_no_factory (p : params) (w : World) :
  locked w = false -> factoryFunc c = None ->
  run d (Create c p) w =
  mkRun [Lock; Unlock] (Returns (None, Some errBulkOpAborted)) w.
Proof.
  intros Hw Hf. unfold Create.
  rewrite run_bind, run_MutexExec by assumption.
  rewrite run_createCore_no_factory by (auto; discriminate).
  unfold thenDeferred, andThen. simpl. now rewrite (world_eta w Hw).
Qed.

Lemma run_Create_panic f (p : params) (v : panicValue) (w : World) :
  locked w = false -> factoryFunc c = Some f -> f p = FPanic v ->
  run d (Create c p) w = mkRun [Lock; Factory p; Unlock] (Panics v) w.
Proof.
  intros Hw Hf Hp. unfold Create.
  rewrite run_bind, run_MutexExec by assumption.
  rewrite createCore_unfold, run_bind. unfold collectPairs. simpl.
  rewrite (makeOne_factory c p Hf). simpl. rewrite Hp. simpl.
  unfold thenDeferred, andThen. simpl. now rewrite (world_eta w Hw).
Qed.

Lemma run_CreateBulk_panic f (p : params) (v : panicValue) (w : World) :
  locked w = false -> factoryFunc c = Some f -> f p = FPanic v ->
  run d (CreateBulk c [p]) w =
  mkRun [Lock; Factory p; Unlock] (Returns ([], Some errPanic)) w.
Proof.
  intros Hw Hf Hp. unfold CreateBulk.
  rewrite run_deferRecover, run_bind, run_MutexExec by assumption.
  rewrite createCore_unfold, run_bind. unfold collectPairs. simpl.
  rewrite (makeOne_factory c p Hf). simpl. rewrite Hp. simpl.
  unfold thenDeferred, andThen. simpl. now rewrite (world_eta w Hw).
Qed.

(** Whatever the parameters, what [CreateBulk] writes is one insert
    of entries the factory returned for them, in order. *)
Lemma CreateBulk_writes (ps : list params) (w : World) (a : Action) :
  locked w = false ->
  In a (writes (events (run d (CreateBulk c ps) w))) ->
  exists es, Forall2 (succeeds c) ps es /\ a = Mgo (insertOf c es).
Proof.
  intros Hw. unfold CreateBulk.
  rewrite run_deferRecover, run_bind, run_MutexExec by assumption.
  destruct (run_createCore_cases d c ps (mkWorld true (counter w)))
    as (Hfin & [(es & Hes & Hr) | (Hwr & Ho)]).
  - rewrite Hr. unfold thenDeferred, andThen. simpl.
    unfold writes. rewrite !filter_app. fold (writes (map Factory ps)).
    rewrite writes_factory_calls. simpl.
    destruct (d (insertOf c es)); simpl; intros [<-|[]]; eauto.
  - unfold thenDeferred, andThen. cbv zeta. rewrite Hfin.
    destruct Ho as [Ho | (v & Ho)]; rewrite Ho; simpl;
      unfold writes in *; rewrite !filter_app, Hwr; simpl; intros [].
Qed.

End CreateFamily.

(** ** The create family, as the specification words it *)

(** C1.  [Create] on a collection without a factory writes nothing to
    storage, and what it returns is the bulk-abort error, not the
    missing-factory error: [createCore] drops the error [makeOne]
    reported and answers with its own. *)
Theorem Create_without_factory (d : Driver) (c : MongoCollection)
    (p : params) (w : World) :
  locked w = false -> factoryFunc c = None ->
  let r := run d (Create c p) w in
  outcome r = Returns (None, Some errBulkOpAborted) /\
  outcome r <> Returns (None, Some errNoFactoryFunc) /\
  events r = [Lock; Unlock] /\ writes (events r) = [].
Proof.
  intros Hw Hf. cbv zeta. rewrite run_Create_no_factory by assumption.
  simpl. repeat split. discriminate.
Qed.

Lemma Create_without_factory_witness :
  outcome (run quiet (Create widgets (VString "a")) idle)
  = Returns (None, Some errBulkOpAborted).
Proof.
  apply (@Create_without_factory quiet widgets (VString "a") idle);
    reflexivity.
Defined.

Lemma CheckPartFail_failed (entryerr : EntryErrorPairs) :
  Exists failed entryerr -> CheckPartFail entryerr = true.
Proof.
  induction 1 as [v l Hv | v l _ IH]; simpl.
  - unfold failed in Hv. destruct (Error v); [reflexivity | now contradiction Hv].
  - destruct (Error v); [reflexivity | assumption].
Qed.

Lemma okPairs_not_failed (es : list MongoEntry) :
  ~ Exists failed (map okPair es).
Proof.
  induction es as [|e es IH]; simpl; intro H; inversion H; subst; auto.
Qed.

Lemma run_commitPairs_failed (d : Driver) (c : MongoCollection)
    (entryerr : EntryErrorPairs) (w : World) :
  Exists failed entryerr ->
  run d (commitPairs c entryerr) w
  = mkRun [] (Returns ([], Some errBulkOpAborted)) w.
Proof.
  intro H. unfold commitPairs. now rewrite (CheckPartFail_failed H).
Qed.

(** C4.  [createCore] is its loop followed by [commitPairs], and
    [commitPairs] gives up with the bulk-abort error, performing
    nothing, as soon as one pair among the N carries an error, wherever
    it stands among pairs that succeeded.  So whenever the loop of
    [CreateBulk] comes back with a failed pair, [CreateBulk] writes
    nothing and returns the bulk-abort error; and for any parameter
    list, whatever [CreateBulk] writes is a single insert of entries
    the factory returned for the parameters. *)
Theorem CreateBulk_aborts_on_failure (d : Driver) (c : MongoCollection) :
  (forall ps,
     createCore c ps
     = (entryerr <- collectPairs c ps [] ;; commitPairs c entryerr)) /\
  (forall entryerr w,
     Exists failed entryerr ->
     run d (commitPairs c entryerr) w
     = mkRun [] (Returns ([], Some errBulkOpAborted)) w) /\
  (forall ps w evs entryerr w',
     locked w = false ->
     run d (collectPairs c ps []) (mkWorld true (counter w))
     = mkRun evs (Returns entryerr) w' ->
     Exists failed entryerr ->
     writes (events (run d (CreateBulk c ps) w)) = [] /\
     outcome (run d (CreateBulk c ps) w)
     = Returns ([], Some errBulkOpAborted)) /\
  (forall ps w a,
     locked w = false ->
     In a (writes (events (run d (CreateBulk c ps) w))) ->
     exists es, Forall2 (succeeds c) ps es /\ a = Mgo (insertOf c es)).
Proof.
  split; [reflexivity|]. split; [|split].
  - intros entryerr w H. exact (run_commitPairs_failed d c w H).
  - intros ps w evs entryerr w' Hw Hloop Hex.
    destruct (factoryFunc c) as [f|] eqn:Hf.
    + exfalso.
      destruct (collectPairs_factory d c ps [] (mkWorld true (counter w)) Hf)
        as (_ & _ & [(es & _ & Ho & _) | (v & Hv)]);
        rewrite Hloop in *; simpl in *.
      * injection Ho as ->. exact (@okPairs_not_failed es Hex).
      * discriminate Hv.
    + rewrite collectPairs_no_factory in Hloop by assumption.
      simpl in Hloop. injection Hloop as _ <- _.
      assert (Hps : ps <> []) by (intros ->; inversion Hex).
      rewrite run_CreateBulk_no_factory by assumption. split; reflexivity.
  - intros ps w a Hw Ha. exact (CreateBulk_writes d c ps w a Hw Ha).
Qed.

Lemma CreateBulk_aborts_on_failure_witness :
  run quiet
    (commitPairs (SetFactoryFunc widgets named)
       [okPair (Some (mkEntry "" [("name", VString "a")]));
        mkPair None (Some errNoFactoryFunc);
        okPair (Some (mkEntry "" [("name", VString "c")]))])
    idle
  = mkRun [] (Returns ([], Some errBulkOpAborted)) idle.
Proof.
  apply (proj1 (proj2 (@CreateBulk_aborts_on_failure quiet
                         (SetFactoryFunc widgets named)))).
  right. left. discriminate.
Defined.

(** C5.  When the factory returns an entry for each of the N
    parameters, [CreateBulk] performs exactly one storage write: one
    insert call holding the N entries in the order of the parameters. *)
Theorem CreateBulk_single_insert (d : Driver) (c : MongoCollection)
    (ps : list params) (es : list MongoEntry) (w : World) :
  locked w = false -> Forall2 (succeeds c) ps es ->
  let r := run d (CreateBulk c ps) w in
  writes (events r) = [Mgo (MgoInsert (Collection c) (map asValue es))] /\
  List.length es = List.length ps /\
  events r = Lock :: map Factory ps ++
             [SessCopy; Mgo (MgoInsert (Collection c) (map asValue es));
              SessClose; Unlock] /\
  outcome r = Returns (match d (MgoInsert (Collection c) (map asValue es)) with
                       | None => (es, None)
                       | Some e => ([], Some e)
                       end) /\
  final r = w.
Proof.
  intros Hw Hall. cbv zeta. rewrite (run_CreateBulk_ok d w Hw Hall). simpl.
  repeat split.
  - unfold writes. rewrite filter_app. fold (writes (map Factory ps)).
    now rewrite writes_factory_calls.
  - symmetry. exact (Forall2_length Hall).
Qed.

Lemma CreateBulk_single_insert_witness :
  writes (events (run quiet
                    (CreateBulk (SetFactoryFunc widgets named)
                       [VString "a"; VString "b"]) idle))
  = [Mgo (MgoInsert "widgets"
            [VStruct "" [("name", VString "a")];
             VStruct "" [("name", VString "b")]])].
Proof.
  refine (proj1 (@CreateBulk_single_insert quiet
                   (SetFactoryFunc widgets named)
                   [VString "a"; VString "b"]
                   [Some (mkEntry "" [("name", VString "a")]);
                    Some (mkEntry "" [("name", VString "b")])]
                   idle eq_refl _)).
  repeat constructor; exists named; split; reflexivity.
Defined.

(** C10.  The failure check finds nothing in an empty sequence of
    pairs, so [CreateBulk] on an empty parameter list does not abort:
    it issues one insert call holding no document and returns what the
    store answers. *)
Theorem CreateBulk_empty (d : Driver) (c : MongoCollection) (w : World) :
  locked w = false ->
  CheckPartFail [] = false /\
  run d (CreateBulk c []) w =
  mkRun [Lock; SessCopy; Mgo (MgoInsert (Collection c) []); SessClose; Unlock]
    (Returns ([], d (MgoInsert (Collection c) []))) w.
Proof.
  intro Hw. split; [reflexivity|].
  rewrite (@run_CreateBulk_ok d c [] [] w Hw) by constructor. simpl.
  unfold insertOf. simpl. now destruct (d (MgoInsert (Collection c) [])).
Qed.

Lemma CreateBulk_empty_witness :
  writes (events (run quiet (CreateBulk widgets []) idle))
  = [Mgo (MgoInsert "widgets" [])].
Proof.
  pose proof (proj2 (@CreateBulk_empty quiet widgets idle eq_refl)) as H.
  rewrite H. reflexivity.
Defined.

(** ** Read *)

Lemma run_Read (d : Driver) (c : MongoCollection) (entryID : string)
    (w : World) :
  run d (Read c entryID) w =
  mkRun [SessCopy; Mgo (MgoFindIdOne (Collection c) entryID); SessClose]
    (Returns (MongoDb.notErrNotFound (d (MgoFindIdOne (Collection c) entryID))))
    w.
Proof. reflexivity. Qed.

(** [Read] answers false exactly when the driver reports its not-found
    sentinel. *)
Lemma Read_false_iff (d : Driver) (c : MongoCollection) (entryID : string)
    (w : World) :
  outcome (run d (Read c entryID) w) = Returns false <->
  d (MgoFindIdOne (Collection c) entryID) = Some ErrNotFound.
Proof.
  rewrite run_Read. simpl.
  destruct (d (MgoFindIdOne (Collection c) entryID)) as [[]|]; simpl;
    split; congruence.
Qed.

(** C2.  When the underlying read fails with an error other than the
    not-found sentinel, the lookup produces no entry and yet [Read]
    returns true: [FindById] compares the error with [mgo.ErrNotFound]
    only. *)
Theorem Read_true_on_read_error (d : Driver) (c : MongoCollection)
    (entryID : string) (w : World) (e : err) :
  d (MgoFindIdOne (Collection c) entryID) = Some e -> e <> ErrNotFound ->
  run d (Read c entryID) w =
  mkRun [SessCopy; Mgo (MgoFindIdOne (Collection c) entryID); SessClose]
    (Returns true) w.
Proof.
  intros He Hne. rewrite run_Read, He. destruct e; try reflexivity.
  now contradiction Hne.
Qed.

Lemma Read_true_on_read_error_witness :
  outcome (run unreachable (Read widgets hexA) idle) = Returns true.
Proof.
  rewrite (@Read_true_on_read_error unreachable widgets hexA idle
             (StoreError "EOF") eq_refl); [reflexivity | discriminate].
Defined.

(** ** Update and identity parsing *)

Section UpdateRuns.

Variable d : Driver.
Variable c : MongoCollection.

Lemma run_GetObjectIDFromString (s : string) (w : World) :
  run d (GetObjectIDFromString s) w =
  mkRun [NewObjectId] (Returns (parseWith (freshId (counter w)) s))
    (mkWorld (locked w) (counter w + 1)).
Proof. reflexivity. Qed.

(** Up to the parsed identity: lock, generate, parse. *)
Ltac update_parsed Hw Hp :=
  unfold Update; rewrite run_MutexExec by exact Hw;
  rewrite run_bind, run_GetObjectIDFromString;
  unfold andThen, thenDeferred;
  cbn [outcome events final counter locked];
  rewrite Hp; cbn [fst snd].

Lemma run_Update_rejected (entryID : string) (p : params) (w : World)
    (b : ObjectId) (e : err) :
  locked w = false ->
  parseWith (freshId (counter w)) entryID = (b, Some e) ->
  run d (Update c entryID p) w =
  mkRun [Lock; NewObjectId; Unlock] (Returns (None, Some e))
    (mkWorld false (counter w + 1)).
Proof.
  intros Hw Hp. update_parsed Hw Hp. reflexivity.
Qed.

Lemma run_Update_accepted f (entryID : string) (p : params) (w : World)
    (b : ObjectId) (x : DbEntry) :
  locked w = false ->
  parseWith (freshId (counter w)) entryID = (b, None) ->
  factoryFunc c = Some f -> f p = FReturn (Some x) ->
  run d (Update c entryID p) w =
  mkRun [Lock; NewObjectId; Factory p; SessCopy; Mgo (updateOf c b x);
         SessClose; Unlock]
    (Returns (Some (SetBsonID x b), d (updateOf c b x)))
    (mkWorld false (counter w + 1)).
Proof.
  intros Hw Hp Hf Hx. update_parsed Hw Hp.
  unfold callFactory. rewrite Hf. simpl. rewrite Hx. reflexivity.
Qed.

Lemma run_Update_panics (entryID : string) (p : params) (w : World)
    (b : ObjectId) (v : panicValue) :
  locked w = false ->
  parseWith (freshId (counter w)) entryID = (b, None) ->
  updatePanic c p = Some v ->
  outcome (run d (Update c entryID p) w) = Panics v /\
  writes (events (run d (Update c entryID p) w)) = [].
Proof.
  intros Hw Hp Hv. update_parsed Hw Hp.
  unfold updatePanic in Hv. unfold callFactory.
  destruct (factoryFunc c) as [f|]; simpl.
  - destruct (f p) as [[x|]|v']; simpl; [discriminate | |];
      injection Hv as <-; split; reflexivity.
  - injection Hv as <-. split; reflexivity.
Qed.

End UpdateRuns.

(** ** What a [$set] update does to a stored document *)

Section SetUpdate.

Lemma field_setField_other (k k' : string) (v : Value) (doc : Document) :
  k <> k' -> field k (setField k' v doc) = field k doc.
Proof.
  intro Hk. induction doc as [|[k0 v0] doc IH]; simpl.
  - now apply String.eqb_neq in Hk as ->.
  - destruct (String.eqb k' k0) eqn:E; simpl.
    + apply String.eqb_eq in E. subst k0.
      now apply String.eqb_neq in Hk as ->.
    + now rewrite IH.
Qed.

(** Fields the update does not name stay as they were stored. *)
Lemma set_keeps_other_fields (k : string) (upd stored : Document) :
  field k upd = None ->
  field k (fold_left (fun doc kv => setField (fst kv) (snd kv) doc)
             upd stored)
  = field k stored.
Proof.
  revert stored. induction upd as [|[k0 v0] upd IH]; intros stored H; simpl.
  - reflexivity.
  - simpl in H. destruct (String.eqb k k0) eqn:E; [discriminate|].
    rewrite IH by assumption. apply field_setField_other.
    now apply String.eqb_neq.
Qed.

End SetUpdate.

(** ** Identity parsing and Update, as the specification words them *)

(** C7.  The empty string is malformed, and yet identity parsing
    returns no error for it, beside the empty identity, which is not
    valid.  For every other malformed input it returns an error, and
    the identity beside the error is the one just generated (a valid
    one), not one read from the input. *)
Theorem GetObjectIDFromString_malformed (d : Driver) (s : string) (w : World) :
  wellFormed s = false ->
  let r := run d (GetObjectIDFromString s) w in
  (s <> "" ->
   Valid (freshId (counter w)) = true /\
   exists data,
     outcome r = Returns (freshId (counter w), Some (InvalidObjectId data))) /\
  (s = "" -> outcome r = Returns ("", None) /\ Valid "" = false).
Proof.
  intro Hwf. cbv zeta. rewrite run_GetObjectIDFromString. simpl. split.
  - intro Hne. split; [apply Valid_freshId|].
    destruct (@parseWith_malformed (freshId (counter w)) s Hwf Hne) as [data ->].
    eauto.
  - intros ->. split; reflexivity.
Qed.

Lemma GetObjectIDFromString_malformed_witness :
  outcome (run quiet (GetObjectIDFromString "") idle) = Returns ("", None).
Proof.
  exact (proj1 (proj2 (@GetObjectIDFromString_malformed quiet "" idle
                         eq_refl) eq_refl)).
Defined.

(** The two cases at concrete inputs: the empty string is parsed
    without error, and the identity returned beside the error for
    another malformed string is a valid one. *)
Example GetObjectIDFromString_malformed_cases :
  (wellFormed "" = false /\
   outcome (run quiet (GetObjectIDFromString "") idle) = Returns ("", None)) /\
  (wellFormed "xyz" = false /\
   exists id e,
     outcome (run quiet (GetObjectIDFromString "xyz") idle)
     = Returns (id, Some e) /\ Valid id = true).
Proof.
  split; [split; reflexivity|]. split; [reflexivity|].
  eexists _, _. split; reflexivity.
Qed.

(** For a malformed id other than the empty string and any
    parameters, [Update] returns the parse error and performs neither
    a factory call nor a driver call: it locks, generates an id, fails
    to parse and unlocks. *)
Theorem Update_malformed_id (d : Driver) (c : MongoCollection)
    (entryID : string) (p : params) (w : World) :
  locked w = false -> wellFormed entryID = false -> entryID <> "" ->
  exists data,
    run d (Update c entryID p) w =
    mkRun [Lock; NewObjectId; Unlock]
      (Returns (None, Some (InvalidObjectId data)))
      (mkWorld false (counter w + 1)).
Proof.
  intros Hw Hwf Hne.
  destruct (@parseWith_malformed (freshId (counter w)) entryID Hwf Hne)
    as [data Hp].
  exists data. exact (@run_Update_rejected d c entryID p w _ _ Hw Hp).
Qed.

Lemma Update_malformed_id_witness :
  exists data,
    run quiet (Update (SetFactoryFunc widgets named) "xyz" (VString "a")) idle
    = mkRun [Lock; NewObjectId; Unlock]
        (Returns (None, Some (InvalidObjectId data))) (mkWorld false 1).
Proof.
  apply (@Update_malformed_id quiet (SetFactoryFunc widgets named) "xyz"
           (VString "a") idle); [reflexivity | reflexivity | discriminate].
Defined.

(** C8.  The empty id is malformed, and yet [Update] does not stop at
    the parse: the parse reports no error, so the factory is called
    and the driver's update is called under the empty identity.  When
    the driver answers that call with an error, as the mgo client
    does, which cannot encode an identity that is not twelve bytes
    long and sends nothing, [Update] returns the new entry beside the
    driver's error, not the parse error. *)
Theorem Update_empty_id (d : Driver) (c : MongoCollection)
    (f : params -> FactoryResult) (p : params) (x : DbEntry) (w : World)
    (e : err) :
  locked w = false -> factoryFunc c = Some f -> f p = FReturn (Some x) ->
  d (MgoUpdate (Collection c) (VM [("_id", VObjectId "")])
       (VM [("$set", VStruct "" (fields x))])) = Some e ->
  wellFormed "" = false /\
  run d (Update c "" p) w =
  mkRun [Lock; NewObjectId; Factory p; SessCopy;
         Mgo (MgoUpdate (Collection c) (VM [("_id", VObjectId "")])
                (VM [("$set", VStruct "" (fields x))]));
         SessClose; Unlock]
    (Returns (Some (mkEntry "" (fields x)), Some e))
    (mkWorld false (counter w + 1)).
Proof.
  intros Hw Hf Hx He. split; [reflexivity|].
  rewrite (@run_Update_accepted d c f "" p w "" x Hw
             (parseWith_empty _) Hf Hx).
  unfold updateOf, byId, setDocument. simpl. now rewrite He.
Qed.

Lemma Update_empty_id_witness :
  run refusing (Update (SetFactoryFunc widgets named) "" (VString "a")) idle =
  mkRun [Lock; NewObjectId; Factory (VString "a"); SessCopy;
         Mgo (MgoUpdate "widgets" (VM [("_id", VObjectId "")])
                (VM [("$set", VStruct "" [("name", VString "a")])]));
         SessClose; Unlock]
    (Returns (Some (mkEntry "" [("name", VString "a")]),
              Some (StoreError
                      "ObjectIDs must be exactly 12 bytes long (got 0)")))
    (mkWorld false 1).
Proof.
  exact (proj2 (@Update_empty_id refusing (SetFactoryFunc widgets named)
                  named (VString "a") (mkEntry "" [("name", VString "a")])
                  idle _ eq_refl eq_refl eq_refl eq_refl)).
Defined.

(** C3.  For a well-formed id, with a factory installed that returns
    an entry for the parameters, [Update] assigns the parsed identity
    to that entry and issues one driver update selected by that
    identity whose update document is a [$set] of the entry: fields of
    the stored document that the entry does not name are kept, so it
    is a patch of fields and not a replacement of the document. *)
Theorem Update_sets_fields (d : Driver) (c : MongoCollection)
    (f : params -> FactoryResult) (entryID : string) (p : params)
    (x : DbEntry) (w : World) :
  locked w = false -> wellFormed entryID = true ->
  factoryFunc c = Some f -> f p = FReturn (Some x) ->
  exists b,
    parseWith (freshId (counter w)) entryID = (b, None) /\ Valid b = true /\
    run d (Update c entryID p) w =
    mkRun [Lock; NewObjectId; Factory p; SessCopy;
           Mgo (MgoUpdate (Collection c) (VM [("_id", VObjectId b)])
                  (VM [("$set", VStruct b (fields x))]));
           SessClose; Unlock]
      (Returns (Some (mkEntry b (fields x)),
                d (MgoUpdate (Collection c) (VM [("_id", VObjectId b)])
                     (VM [("$set", VStruct b (fields x))]))))
      (mkWorld false (counter w + 1)) /\
    forall stored k after,
      applyUpdate stored (VM [("$set", VStruct b (fields x))]) = Some after ->
      field k (bsonOf (mkEntry b (fields x))) = None ->
      field k after = field k stored.
Proof.
  intros Hw Hwf Hf Hx.
  destruct (@parseWith_wellFormed (freshId (counter w)) entryID Hwf)
    as (b & Hp & Hb).
  exists b. repeat split; auto.
  - exact (@run_Update_accepted d c f entryID p w b x Hw Hp Hf Hx).
  - intros stored k after Hafter Hk. simpl in Hafter.
    injection Hafter as <-. now apply set_keeps_other_fields.
Qed.

Lemma Update_sets_fields_witness :
  exists b,
    parseWith (freshId 0) hexA = (b, None) /\ Valid b = true /\
    run quiet (Update (SetFactoryFunc widgets named) hexA (VString "z")) idle =
    mkRun [Lock; NewObjectId; Factory (VString "z"); SessCopy;
           Mgo (MgoUpdate "widgets" (VM [("_id", VObjectId b)])
                  (VM [("$set", VStruct b [("name", VString "z")])]));
           SessClose; Unlock]
      (Returns (Some (mkEntry b [("name", VString "z")]), None))
      (mkWorld false 1) /\
    forall stored k after,
      applyUpdate stored (VM [("$set", VStruct b [("name", VString "z")])])
      = Some after ->
      field k (bsonOf (mkEntry b [("name", VString "z")])) = None ->
      field k after = field k stored.
Proof.
  apply (@Update_sets_fields quiet (SetFactoryFunc widgets named) named hexA
           (VString "z") (mkEntry "" [("name", VString "z")]) idle);
    reflexivity.
Defined.

(** C3, as stated, fails: the update [Update] issues for a stored
    widget does not replace the document by the new entry's; the
    stored field the entry lacks is still there afterwards. *)
Lemma Update_sets_fields_counterexample :
  let newEntry := mkEntry idA [("name", VString "z")] in
  let update := VM [("$set", VStruct idA [("name", VString "z")])] in
  run quiet (Update (SetFactoryFunc widgets named) hexA (VString "z")) idle =
  mkRun [Lock; NewObjectId; Factory (VString "z"); SessCopy;
         Mgo (MgoUpdate "widgets" (VM [("_id", VObjectId idA)]) update);
         SessClose; Unlock]
    (Returns (Some newEntry, None)) (mkWorld false 1) /\
  applyUpdate storedWidget update =
  Some [("_id", VObjectId idA); ("name", VString "z"); ("stock", VInt 7)] /\
  bsonOf newEntry = [("_id", VObjectId idA); ("name", VString "z")] /\
  applyUpdate storedWidget update <> Some (bsonOf newEntry).
Proof. repeat split. discriminate. Qed.

(** C6.  A panic of the factory is caught by [CreateBulk] only:
    [Create] and [Update] have no recover, so the panic reaches their
    caller (after the deferred unlock). *)
Theorem Create_panic_escapes (d : Driver) (c : MongoCollection)
    (f : params -> FactoryResult) (p : params) (v : panicValue) (w : World) :
  locked w = false -> factoryFunc c = Some f -> f p = FPanic v ->
  run d (Create c p) w = mkRun [Lock; Factory p; Unlock] (Panics v) w /\
  run d (CreateBulk c [p]) w =
  mkRun [Lock; Factory p; Unlock] (Returns ([], Some errPanic)) w /\
  forall entryID b,
    parseWith (freshId (counter w)) entryID = (b, None) ->
    outcome (run d (Update c entryID p) w) = Panics v.
Proof.
  intros Hw Hf Hp. split; [|split].
  - exact (@run_Create_panic d c f p v w Hw Hf Hp).
  - exact (@run_CreateBulk_panic d c f p v w Hw Hf Hp).
  - intros entryID b Hb.
    apply (@run_Update_panics d c entryID p w b v Hw Hb).
    unfold updatePanic. now rewrite Hf, Hp.
Qed.

Lemma Create_panic_escapes_witness :
  outcome (run quiet (Create (SetFactoryFunc widgets faulty) (VString "a")) idle)
  = Panics (UserPanic "bad parameters").
Proof.
  rewrite (proj1 (@Create_panic_escapes quiet (SetFactoryFunc widgets faulty)
                    faulty (VString "a") (UserPanic "bad parameters") idle
                    eq_refl eq_refl eq_refl)).
  reflexivity.
Defined.

(** ** Every mutating operation is a locked operation *)

Section LockShape.

Lemma finished_bind {A B} (p : Prog A) (f : A -> Prog B) :
  finished p = true -> (forall a, finished (f a) = true) ->
  finished (bind p f) = true.
Proof. destruct p; simpl; auto. Qed.

Lemma finished_deferRecover {A} (p : Prog A) (h : panicValue -> A) :
  finished p = true -> finished (deferRecover p h) = true.
Proof. destruct p; simpl; auto. Qed.

Lemma lockFree_bind {A B} (p : Prog A) (f : A -> Prog B) :
  lockFree p -> (forall a, lockFree (f a)) -> lockFree (bind p f).
Proof.
  intros Hp Hf. induction p as [a | v | a k IH]; simpl; auto.
  destruct Hp as (H1 & H2 & H3). auto.
Qed.

Lemma lockFree_defer {A} (p : Prog A) (dd : Prog unit) :
  lockFree p -> lockFree dd -> lockFree (defer p dd).
Proof.
  intros Hp Hd. induction p as [a | v | a k IH]; simpl.
  - apply lockFree_bind; simpl; auto.
  - apply lockFree_bind; simpl; auto.
  - destruct Hp as (H1 & H2 & H3). auto.
Qed.

Lemma lockFree_perform (a : Action) :
  isLock a = false -> isUnlock a = false -> lockFree (perform a).
Proof. simpl. auto. Qed.

Lemma lockFree_withSession {A} (op : Prog A) :
  lockFree op -> lockFree (MongoDb.withSession op).
Proof.
  intro H. unfold MongoDb.withSession.
  apply lockFree_bind; [now apply lockFree_perform|].
  intros _. apply lockFree_defer; [assumption | now apply lockFree_perform].
Qed.

Lemma lockFree_driver_call (call : MgoCall) :
  lockFree (MongoDb.withSession (perform (Mgo call))).
Proof. apply lockFree_withSession. now apply lockFree_perform. Qed.

Variable c : MongoCollection.

Lemma lockFree_insertCore (es : list MongoEntry) : lockFree (insertCore c es).
Proof. apply lockFree_driver_call. Qed.

Lemma lockFree_callFactory (p : params) : lockFree (callFactory c p).
Proof.
  unfold callFactory. destruct (factoryFunc c) as [f|]; simpl; auto.
  repeat split. intros _. now destruct (f p).
Qed.

Lemma lockFree_makeOne (p : params) : lockFree (makeOne c p).
Proof.
  unfold makeOne. destruct (factoryFunc c) as [f|] eqn:Hf; simpl; auto.
  apply lockFree_bind; simpl; auto.
  unfold callFactory. rewrite Hf. simpl.
  repeat split. intros _. now destruct (f p).
Qed.

Lemma lockFree_collectPairs (ps : list params) (acc : EntryErrorPairs) :
  lockFree (collectPairs c ps acc).
Proof.
  unfold collectPairs. revert acc.
  induction ps as [|p ps IH]; intro acc; simpl; auto.
  apply lockFree_bind; [|auto].
  apply lockFree_bind; [apply lockFree_makeOne|].
  intros [entry eErr]. simpl. auto.
Qed.

Lemma lockFree_createCore (ps : list params) : lockFree (createCore c ps).
Proof.
  rewrite createCore_unfold.
  apply lockFree_bind; [apply lockFree_collectPairs|].
  intro entryerr. destruct (CheckPartFail entryerr); simpl; auto.
  repeat split.
Qed.

Lemma lockFree_GetObjectIDFromString (s : string) :
  lockFree (GetObjectIDFromString s).
Proof. simpl. auto. Qed.

(** The deferred [Unlock] closes the critical section on every way
    out of the callback. *)
Lemma critical_defer_Unlock {A} (cb : Prog A) :
  lockFree cb -> critical (defer cb (perform Unlock)).
Proof.
  intro H. induction cb as [a | v | a k IH]; simpl; auto.
  destruct H as (H1 & H2 & H3). rewrite H2. auto.
Qed.

Lemma guarded_MutexExec {A} (cb : Prog A) :
  lockFree cb -> guarded (MutexExec cb).
Proof.
  intro H. unfold MutexExec. simpl. split; [reflexivity|].
  intros _. now apply critical_defer_Unlock.
Qed.

Lemma critical_bind {A B} (p : Prog A) (f : A -> Prog B) :
  critical p -> (forall a, finished (f a) = true) -> critical (bind p f).
Proof.
  intros Hp Hf. induction p as [a | v | a k IH]; simpl in *;
    try contradiction.
  destruct (isUnlock a).
  - intro r. now apply finished_bind.
  - destruct Hp as [H1 H2]. auto.
Qed.

Lemma critical_deferRecover {A} (p : Prog A) (h : panicValue -> A) :
  critical p -> critical (deferRecover p h).
Proof.
  intros Hp. induction p as [a | v | a k IH]; simpl in *;
    try contradiction.
  destruct (isUnlock a).
  - intro r. now apply finished_deferRecover.
  - destruct Hp as [H1 H2]. auto.
Qed.

Lemma guarded_bind {A B} (p : Prog A) (f : A -> Prog B) :
  guarded p -> (forall a, finished (f a) = true) -> guarded (bind p f).
Proof.
  destruct p as [a | v | a k]; simpl; try contradiction.
  intros [H1 H2] Hf. split; [assumption|].
  intro r. now apply critical_bind.
Qed.

Lemma guarded_deferRecover {A} (p : Prog A) (h : panicValue -> A) :
  guarded p -> guarded (deferRecover p h).
Proof.
  destruct p as [a | v | a k]; simpl; try contradiction.
  intros [H1 H2]. split; [assumption|].
  intro r. now apply critical_deferRecover.
Qed.

Lemma guarded_task {A} (p : Prog A) : guarded p -> guarded (task p).
Proof. intro H. unfold task. now apply guarded_bind. Qed.

(** Each of the seven mutating operations takes the lock first and
    does all the rest, construction and write, before its unlock. *)
Lemma guarded_goroutine (call : MutatingCall) : guarded (goroutine c call).
Proof.
  destruct call as [e | es | p | ps | id p | id |]; cbn [goroutine];
    apply guarded_task.
  - apply guarded_MutexExec, lockFree_insertCore.
  - apply guarded_MutexExec, lockFree_insertCore.
  - unfold Create. apply guarded_bind.
    + apply guarded_MutexExec, lockFree_createCore.
    + intros [entries [e|]]; [reflexivity|]. now destruct entries.
  - unfold CreateBulk. apply guarded_deferRecover, guarded_bind.
    + apply guarded_MutexExec, lockFree_createCore.
    + intros [entries [e|]]; reflexivity.
  - unfold Update. apply guarded_MutexExec.
    apply lockFree_bind; [apply lockFree_GetObjectIDFromString|].
    intros [b [e|]]; cbv beta iota; [exact I|].
    apply lockFree_bind; [apply lockFree_callFactory|].
    intros [x|]; cbv beta iota; [|exact I].
    apply lockFree_bind; [apply lockFree_driver_call | intro; exact I].
  - unfold Delete. apply guarded_MutexExec.
    apply lockFree_bind; [apply lockFree_GetObjectIDFromString|].
    intros [b [e|]]; cbv beta iota; [exact I | apply lockFree_driver_call].
  - apply guarded_MutexExec, lockFree_driver_call.
Qed.

End LockShape.

(** ** Interleaved calls *)

Section Interleaving.

Variable c : MongoCollection.
Variable calls : list MutatingCall.

Lemma nth_error_replace_same {X} (l : list X) (i : nat) (x y : X) :
  nth_error l i = Some y -> nth_error (replace i x l) i = Some x.
Proof.
  revert i. induction l as [|h l IH]; intros [|i]; simpl;
    try discriminate; auto.
Qed.

Lemma nth_error_replace_other {X} (l : list X) (i j : nat) (x : X) :
  i <> j -> nth_error (replace i x l) j = nth_error l j.
Proof.
  revert i j. induction l as [|h l IH]; intros [|i] [|j] Hij; simpl; auto.
  now contradiction Hij.
Qed.

Lemma serialized_start : serialized c calls (start c calls).
Proof.
  intros i p Hp. left. unfold start in Hp. simpl in Hp.
  rewrite nth_error_map in Hp.
  destruct (nth_error calls i) as [call|]; [|discriminate].
  injection Hp as <-. eauto.
Qed.

(** One step of any goroutine keeps the configuration serialized. *)
Lemma serialized_step (cfg : Config) (i : nat) (o : Oracle) :
  serialized c calls cfg -> serialized c calls (step cfg i o).
Proof.
  intro Inv. unfold step.
  destruct (nth_error (pool cfg) i) as [[x | v | a k]|] eqn:Hi; auto.
  destruct (mutexAfter a i (mutex cfg)) as [m'|] eqn:Hm; auto.
  intros j p Hj. cbn [pool mutex] in *.
  destruct (Nat.eq_dec i j) as [<-|Hij].
  - rewrite (nth_error_replace_same _ _ _ Hi) in Hj. injection Hj as <-.
    right.
    destruct (Inv i _ Hi) as [(call & _ & Hp) | [[Hc Hmx] | Hfin]].
    + pose proof (guarded_goroutine c call) as Hg. rewrite <- Hp in Hg.
      destruct Hg as [Hlock Hcrit].
      destruct a; try discriminate Hlock. simpl in Hm.
      destruct (mutex cfg); [discriminate|]. injection Hm as <-.
      left. split; [apply Hcrit | reflexivity].
    + simpl in Hc. destruct a; simpl in Hc, Hm;
        try (destruct Hc as [_ Hc]; injection Hm as <-; left;
             split; [apply Hc | assumption]).
      * destruct Hc as [Hc _]. discriminate Hc.
      * right. apply Hc.
    + discriminate Hfin.
  - rewrite nth_error_replace_other in Hj by assumption.
    destruct (Inv j _ Hj) as [Hstart | [[Hc Hmx] | Hfin]]; auto.
    exfalso.
    destruct (Inv i _ Hi) as [(call & _ & Hp) | [[Hci Hmi] | Hfin]].
    + pose proof (guarded_goroutine c call) as Hg. rewrite <- Hp in Hg.
      destruct Hg as [Hlock _].
      destruct a; try discriminate Hlock. simpl in Hm.
      rewrite Hmx in Hm. discriminate Hm.
    + congruence.
    + discriminate Hfin.
Qed.

Lemma serialized_exec (s : Schedule) (cfg : Config) :
  serialized c calls cfg -> serialized c calls (exec cfg s).
Proof.
  revert cfg. induction s as [|[i o] s IH]; intros cfg Inv; simpl; auto.
  apply IH. now apply serialized_step.
Qed.

End Interleaving.

(** C9.  Whatever the schedule of goroutines running mutating
    operations (Insert, InsertBulk, Create, CreateBulk, Update, Delete,
    DeleteAll) on one collection: an operation that has begun and not
    ended holds the collection's lock, so at most one is in flight;
    and every action other than taking the lock, entry construction
    and storage write among them, is performed by the holder of the
    lock. *)
Theorem mutating_calls_serialized (c : MongoCollection)
    (calls : list MutatingCall) (s : Schedule) :
  let cfg := exec (start c calls) s in
  (forall i, inFlight c calls cfg i -> mutex cfg = Some i) /\
  (forall i j, inFlight c calls cfg i -> inFlight c calls cfg j -> i = j) /\
  (forall i a k, nth_error (pool cfg) i = Some (Act a k) ->
                 isLock a = false -> mutex cfg = Some i).
Proof.
  cbv zeta.
  pose proof (serialized_exec s (serialized_start c calls)) as Inv.
  assert (Hheld : forall i, inFlight c calls (exec (start c calls) s) i ->
                            mutex (exec (start c calls) s) = Some i).
  { intros i (call & p & Hcall & Hp & Hne & Hfin).
    destruct (Inv i p Hp) as [(call' & Hcall' & Hs) | [[_ Hm] | Hf]].
    - exfalso. apply Hne. congruence.
    - assumption.
    - congruence. }
  split; [assumption|]. split.
  - intros i j Hi Hj. apply Hheld in Hi. apply Hheld in Hj. congruence.
  - intros i a k Hp Ha.
    destruct (Inv i _ Hp) as [(call & _ & Hs) | [[_ Hm] | Hf]].
    + pose proof (guarded_goroutine c call) as Hg. rewrite <- Hs in Hg.
      destruct Hg as [Hlock _]. congruence.
    + assumption.
    + discriminate Hf.
Qed.

Lemma mutating_calls_serialized_witness :
  mutex (exec (start (SetFactoryFunc widgets named)
                 [CallCreate (VString "a"); CallDeleteAll])
           [(0, calm); (1, calm); (0, calm)])
  = Some 0.
Proof.
  refine (proj1 (mutating_calls_serialized (SetFactoryFunc widgets named)
                   [CallCreate (VString "a"); CallDeleteAll]
                   [(0, calm); (1, calm); (0, calm)]) 0 _).
  eexists _, _. split; [reflexivity|]. split; [reflexivity|].
  split; [|reflexivity]. intro H. discriminate H.
Defined.

(** * Further properties of the code *)

(** ** Entry-error pairs *)

(** When the check finds no failure, the pairs carry nothing but
    their entries: pairing the entry slice with nil errors gives the
    pairs back. *)
Theorem MakeEntrySlice_lossless (p : EntryErrorPairs) :
  CheckPartFail p = false -> map okPair (MakeEntrySlice p) = p.
Proof.
  induction p as [|[entry e] p IH]; simpl; [reflexivity|].
  destruct e as [e|]; [discriminate|].
  intro H. unfold okPair at 1. f_equal. now apply IH.
Qed.

Lemma MakeEntrySlice_lossless_witness :
  map okPair (MakeEntrySlice [mkPair None None;
                              mkPair (Some (mkEntry idA [])) None])
  = [mkPair None None; mkPair (Some (mkEntry idA [])) None].
Proof. apply MakeEntrySlice_lossless. reflexivity. Defined.

(** ** Identity parsing *)

Lemma parseWith_wellFormed_any (s : string) :
  wellFormed s = true ->
  exists id, Valid id = true /\ forall fresh, parseWith fresh s = (id, None).
Proof.
  intro Hwf.
  destruct (@parseWith_wellFormed "" s Hwf) as (id & Hp & Hv).
  exists id. split; [assumption|]. intro fresh.
  destruct (@parseWith_wellFormed fresh s Hwf) as (id' & Hp' & _).
  rewrite Hp'. f_equal.
  unfold parseWith, UnmarshalJSON in Hp, Hp'.
  destruct (_ || bytesEqual _ nullBytes); [congruence|].
  destruct (_ || _ || _); [discriminate Hp|].
  destruct (hexDecode _); [congruence | discriminate Hp].
Qed.

(** The inputs identity parsing accepts are the 24-digit hexadecimal
    strings and the empty string, and no other. *)
Theorem GetObjectIDFromString_accepts (d : Driver) (s : string) (w : World) :
  (exists id, outcome (run d (GetObjectIDFromString s) w) = Returns (id, None))
  <-> wellFormed s = true \/ s = "".
Proof.
  rewrite run_GetObjectIDFromString. simpl. split.
  - intros [id Hid]. destruct (wellFormed s) eqn:Hwf; [now left | right].
    destruct (string_dec s "") as [|Hne]; [assumption|].
    destruct (@parseWith_malformed (freshId (counter w)) s Hwf Hne)
      as [data Hp].
    rewrite Hp in Hid. discriminate Hid.
  - intros [Hwf | ->].
    + destruct (@parseWith_wellFormed (freshId (counter w)) s Hwf)
        as (id & -> & _).
      eauto.
    + exists "". reflexivity.
Qed.

(** A well-formed string is parsed to a valid identity that depends on
    the string alone; the identity generated on the way is used up and
    thrown away. *)
Theorem GetObjectIDFromString_wellFormed (s : string) :
  wellFormed s = true ->
  exists id,
    Valid id = true /\
    forall d w,
      run d (GetObjectIDFromString s) w =
      mkRun [NewObjectId] (Returns (id, None))
        (mkWorld (locked w) (counter w + 1)).
Proof.
  intro Hwf. destruct (parseWith_wellFormed_any s Hwf) as (id & Hv & Hp).
  exists id. split; [assumption|]. intros d w.
  rewrite run_GetObjectIDFromString, Hp. reflexivity.
Qed.

Lemma GetObjectIDFromString_wellFormed_witness :
  exists id,
    Valid id = true /\
    forall d w,
      run d (GetObjectIDFromString hexA) w =
      mkRun [NewObjectId] (Returns (id, None))
        (mkWorld (locked w) (counter w + 1)).
Proof. apply GetObjectIDFromString_wellFormed. reflexivity. Defined.

(** ** Insert and create *)

Section InsertRuns.

Variable d : Driver.
Variable c : MongoCollection.

Lemma run_InsertBulk (entries : list MongoEntry) (w : World) :
  locked w = false ->
  run d (InsertBulk c entries) w =
  mkRun [Lock; SessCopy; Mgo (insertOf c entries); SessClose; Unlock]
    (Returns (d (insertOf c entries))) w.
Proof.
  intro Hw. unfold InsertBulk. rewrite run_MutexExec by assumption.
  rewrite run_insertCore. unfold thenDeferred. simpl.
  now rewrite (world_eta w Hw).
Qed.

Lemma run_Create_ok (p : params) (e : MongoEntry) (w : World) :
  locked w = false -> succeeds c p e ->
  run d (Create c p) w =
  mkRun [Lock; Factory p; SessCopy; Mgo (insertOf c [e]); SessClose; Unlock]
    (Returns (match d (insertOf c [e]) with
              | None => (e, None)
              | Some x => (None, Some x)
              end))
    w.
Proof.
  intros Hw Hs. unfold Create.
  rewrite run_bind, run_MutexExec by assumption.
  assert (Hall : Forall2 (succeeds c) [p] [e]) by (repeat constructor; auto).
  rewrite (run_createCore_ok d _ Hall). unfold thenDeferred, andThen. simpl.
  rewrite (world_eta w Hw). now destruct (d (insertOf c [e])).
Qed.

(** [InsertBulk] hands the whole sequence, in order, to the store in
    one insert call, also when the sequence is empty or holds nil
    entries, and returns the store's answer unchanged. *)
Theorem InsertBulk_one_batch (entries : list MongoEntry) (w : World) :
  locked w = false ->
  run d (InsertBulk c entries) w =
  mkRun [Lock; SessCopy;
         Mgo (MgoInsert (Collection c) (map asValue entries));
         SessClose; Unlock]
    (Returns (d (MgoInsert (Collection c) (map asValue entries)))) w.
Proof. exact (@run_InsertBulk entries w). Qed.

(** [Insert] is [InsertBulk] on the one-element sequence: one insert
    call with a single document, the store's answer returned
    unchanged. *)
Theorem Insert_single_batch (entry : MongoEntry) (w : World) :
  locked w = false ->
  Insert c entry = InsertBulk c [entry] /\
  run d (Insert c entry) w =
  mkRun [Lock; SessCopy; Mgo (MgoInsert (Collection c) [asValue entry]);
         SessClose; Unlock]
    (Returns (d (MgoInsert (Collection c) [asValue entry]))) w.
Proof.
  intro Hw. split; [reflexivity|].
  exact (@run_InsertBulk [entry] w Hw).
Qed.

(** With a factory that returns an entry for the parameters, [Create]
    calls it once and inserts that entry alone; it returns the entry
    when the store accepts and the store's error without the entry
    when it does not. *)
Theorem Create_inserts_built_entry (p : params) (e : MongoEntry) (w : World) :
  locked w = false -> succeeds c p e ->
  run d (Create c p) w =
  mkRun [Lock; Factory p; SessCopy;
         Mgo (MgoInsert (Collection c) [asValue e]); SessClose; Unlock]
    (Returns (match d (MgoInsert (Collection c) [asValue e]) with
              | None => (e, None)
              | Some x => (None, Some x)
              end))
    w.
Proof. exact (@run_Create_ok p e w). Qed.

(** [Create] performs exactly the actions of [CreateBulk] on the
    one-element list and leaves the same world, whether the factory
    is missing, returns or panics. *)
Theorem Create_as_singleton_bulk (p : params) (w : World) :
  locked w = false ->
  events (run d (Create c p) w) = events (run d (CreateBulk c [p]) w) /\
  final (run d (Create c p) w) = final (run d (CreateBulk c [p]) w).
Proof.
  intro Hw. destruct (factoryFunc c) as [f|] eqn:Hf.
  - destruct (f p) as [e|v] eqn:Hp.
    + assert (Hs : succeeds c p e) by (exists f; auto).
      rewrite (run_Create_ok w Hw Hs).
      rewrite (@run_CreateBulk_ok d c [p] [e] w Hw)
        by (repeat constructor; auto).
      split; reflexivity.
    + rewrite (@run_Create_panic d c f p v w Hw Hf Hp).
      rewrite (@run_CreateBulk_panic d c f p v w Hw Hf Hp).
      split; reflexivity.
  - rewrite run_Create_no_factory by assumption.
    rewrite run_CreateBulk_no_factory by (auto; discriminate).
    split; reflexivity.
Qed.

(** [CreateBulk] gives up before any write with the bulk-abort error
    exactly when no factory is installed and the list is not empty:
    an installed factory has no way to report a construction error. *)
Theorem CreateBulk_aborts_iff (ps : list params) (w : World) :
  locked w = false ->
  let r := run d (CreateBulk c ps) w in
  (writes (events r) = [] /\ outcome r = Returns ([], Some errBulkOpAborted))
  <-> (factoryFunc c = None /\ ps <> []).
Proof.
  intro Hw. cbv zeta. split.
  - intros [Hwr Ho]. destruct (factoryFunc c) as [f|] eqn:Hf.
    + exfalso.
      destruct (collectPairs_factory d c ps [] (mkWorld true (counter w)) Hf)
        as (Hfin & _ & [(es & Hes & _) | (v & Hv)]).
      * rewrite (@run_CreateBulk_ok d c ps es w Hw Hes) in Hwr.
        simpl in Hwr. unfold writes in Hwr. rewrite filter_app in Hwr.
        apply app_eq_nil in Hwr. destruct Hwr as [_ Hwr]. discriminate Hwr.
      * revert Ho. unfold CreateBulk.
        rewrite run_deferRecover, run_bind, run_MutexExec by assumption.
        rewrite createCore_unfold, run_bind.
        unfold andThen, thenDeferred. rewrite Hv, Hfin. simpl.
        intro Ho. discriminate Ho.
    + split; [reflexivity|]. intros ->.
      rewrite (@run_CreateBulk_ok d c [] [] w Hw) in Hwr by constructor.
      discriminate Hwr.
  - intros [Hf Hps]. rewrite run_CreateBulk_no_factory by assumption.
    split; reflexivity.
Qed.

Lemma run_collectPairs_panic f (pre post : list params) (es : list MongoEntry)
    (p : params) (v : panicValue) (acc : EntryErrorPairs) (w : World) :
  factoryFunc c = Some f ->
  Forall2 (fun q e => f q = FReturn e) pre es -> f p = FPanic v ->
  run d (collectPairs c (pre ++ p :: post) acc) w =
  mkRun (map Factory (pre ++ [p])) (Panics v) w.
Proof.
  intros Hf Hpre Hp. unfold collectPairs. revert acc.
  induction Hpre as [|q e pre es Hq _ IH]; intro acc; simpl.
  - rewrite (makeOne_factory c p Hf). simpl. rewrite Hp. reflexivity.
  - rewrite (makeOne_factory c q Hf). simpl. rewrite Hq. simpl.
    rewrite IH. reflexivity.
Qed.

(** When the factory panics on a parameter after returning for the
    ones before it, [CreateBulk] stops there: the later parameters
    are never handed to the factory, nothing is written, the lock is
    released and the panic error is returned. *)
Theorem CreateBulk_stops_at_panic f (pre post : list params)
    (es : list MongoEntry) (p : params) (v : panicValue) (w : World) :
  locked w = false -> factoryFunc c = Some f ->
  Forall2 (fun q e => f q = FReturn e) pre es -> f p = FPanic v ->
  run d (CreateBulk c (pre ++ p :: post)) w =
  mkRun (Lock :: map Factory (pre ++ [p]) ++ [Unlock])
    (Returns ([], Some errPanic)) w.
Proof.
  intros Hw Hf Hpre Hp. unfold CreateBulk.
  rewrite run_deferRecover, run_bind, run_MutexExec by assumption.
  rewrite createCore_unfold, run_bind.
  rewrite (@run_collectPairs_panic f pre post es p v [] _ Hf Hpre Hp).
  unfold andThen, thenDeferred. simpl. now rewrite (world_eta w Hw).
Qed.

End InsertRuns.

Lemma InsertBulk_one_batch_witness :
  writes (events (run quiet (InsertBulk widgets [None; Some (mkEntry idA [])])
                    idle))
  = [Mgo (MgoInsert "widgets" [VNil; VStruct idA []])].
Proof.
  rewrite (@InsertBulk_one_batch quiet widgets
             [None; Some (mkEntry idA [])] idle eq_refl).
  reflexivity.
Defined.

Lemma Insert_single_batch_witness :
  outcome (run unreachable (Insert widgets (Some (mkEntry idA []))) idle)
  = Returns (Some (StoreError "EOF")).
Proof.
  rewrite (proj2 (@Insert_single_batch unreachable widgets
                    (Some (mkEntry idA [])) idle eq_refl)).
  reflexivity.
Defined.

Lemma Create_inserts_built_entry_witness :
  outcome (run unreachable
             (Create (SetFactoryFunc widgets named) (VString "a")) idle)
  = Returns (None, Some (StoreError "EOF")).
Proof.
  rewrite (@Create_inserts_built_entry unreachable
             (SetFactoryFunc widgets named) (VString "a")
             (Some (mkEntry "" [("name", VString "a")])) idle eq_refl).
  - reflexivity.
  - exists named. split; reflexivity.
Defined.

Lemma Create_as_singleton_bulk_witness :
  events (run quiet (Create (SetFactoryFunc widgets faulty) VNil) idle)
  = events (run quiet (CreateBulk (SetFactoryFunc widgets faulty) [VNil]) idle).
Proof.
  exact (proj1 (@Create_as_singleton_bulk quiet
                  (SetFactoryFunc widgets faulty) VNil idle eq_refl)).
Defined.

Lemma CreateBulk_aborts_iff_witness :
  factoryFunc widgets = None /\ [VNil] <> [].
Proof.
  apply (@CreateBulk_aborts_iff quiet widgets [VNil] idle eq_refl).
  split; reflexivity.
Defined.

Lemma CreateBulk_stops_at_panic_witness :
  run quiet (CreateBulk (SetFactoryFunc widgets picky)
               [VString "a"; VString ""; VString "b"]) idle
  = mkRun [Lock; Factory (VString "a"); Factory (VString ""); Unlock]
      (Returns ([], Some errPanic)) idle.
Proof.
  apply (@CreateBulk_stops_at_panic quiet (SetFactoryFunc widgets picky)
           picky [VString "a"] [VString "b"]
           [Some (mkEntry "" [("name", VString "a")])]
           (VString "") (UserPanic "empty name") idle);
    try reflexivity.
  repeat constructor.
Defined.

(** ** Delete *)

Section DeleteRuns.

Variable d : Driver.
Variable c : MongoCollection.

(** The removal [Delete] issues for identity [b]. *)
Lemma run_Delete_parsed (entryID : string) (w : World) (b : ObjectId)
    (e : error) :
  locked w = false ->
  parseWith (freshId (counter w)) entryID = (b, e) ->
  run d (Delete c entryID) w =
  match e with
  | Some _ =>
      mkRun [Lock; NewObjectId; Unlock] (Returns e)
        (mkWorld false (counter w + 1))
  | None =>
      mkRun [Lock; NewObjectId; SessCopy;
             Mgo (MgoRemoveAll (Collection c) (VM [("_id", VObjectId b)]));
             SessClose; Unlock]
        (Returns (d (MgoRemoveAll (Collection c)
                       (VM [("_id", VObjectId b)]))))
        (mkWorld false (counter w + 1))
  end.
Proof.
  intros Hw Hp. unfold Delete. rewrite run_MutexExec by exact Hw.
  rewrite run_bind, run_GetObjectIDFromString.
  unfold andThen, thenDeferred. cbn [outcome events final counter locked].
  rewrite Hp. now destruct e.
Qed.


(** For a malformed id other than the empty string, [Delete] returns
    the parse error and calls neither the driver nor anything else in
    storage: it locks, generates an id, fails to parse and unlocks. *)
Theorem Delete_malformed_id (entryID : string) (w : World) :
  locked w = false -> wellFormed entryID = false -> entryID <> "" ->
  exists data,
    run d (Delete c entryID) w =
    mkRun [Lock; NewObjectId; Unlock]
      (Returns (Some (InvalidObjectId data)))
      (mkWorld false (counter w + 1)).
Proof.
  intros Hw Hwf Hne.
  destruct (@parseWith_malformed (freshId (counter w)) entryID Hwf Hne)
    as [data Hp].
  exists data. exact (run_Delete_parsed entryID w Hw Hp).
Qed.

Lemma run_DeleteAll (w : World) :
  locked w = false ->
  run d (DeleteAll c) w =
  mkRun [Lock; SessCopy; Mgo (MgoRemoveAll (Collection c) (VM []));
         SessClose; Unlock]
    (Returns (d (MgoRemoveAll (Collection c) (VM [])))) w.
Proof.
  intro Hw. unfold DeleteAll. rewrite run_MutexExec by assumption.
  unfold thenDeferred. simpl. now rewrite (world_eta w Hw).
Qed.

(** [DeleteAll] issues one removal with the empty selector, which
    selects every document, and returns the store's answer. *)
Theorem DeleteAll_removes_everything (w : World) :
  locked w = false ->
  run d (DeleteAll c) w =
  mkRun [Lock; SessCopy; Mgo (MgoRemoveAll (Collection c) (VM []));
         SessClose; Unlock]
    (Returns (d (MgoRemoveAll (Collection c) (VM [])))) w.
Proof. exact (@run_DeleteAll w). Qed.

End DeleteRuns.


Lemma Delete_malformed_id_witness :
  exists data,
    run quiet (Delete widgets "xyz") idle =
    mkRun [Lock; NewObjectId; Unlock]
      (Returns (Some (InvalidObjectId data))) (mkWorld false 1).
Proof.
  apply (@Delete_malformed_id quiet widgets "xyz" idle);
    [reflexivity | reflexivity | discriminate].
Defined.

Lemma DeleteAll_removes_everything_witness :
  outcome (run unreachable (DeleteAll widgets) idle)
  = Returns (Some (StoreError "EOF")).
Proof.
  rewrite (@DeleteAll_removes_everything unreachable widgets idle eq_refl).
  reflexivity.
Defined.

(** ** The lock around one call *)

Section LockRuns.

Variable d : Driver.

(** A program that never touches the mutex runs to a return or a
    panic, whatever the state of the mutex, and leaves it as it was. *)
Lemma lockFree_run {A} (p : Prog A) (w : World) :
  lockFree p ->
  outcome (run d p w) <> Stuck /\
  locked (final (run d p w)) = locked w /\
  Forall plain (events (run d p w)).
Proof.
  intro H. revert w. induction p as [x | v | a k IH]; intro w; simpl.
  - repeat split; [discriminate | constructor].
  - repeat split; [discriminate | constructor].
  - destruct H as (H1 & H2 & H3).
    assert (Hh : exists r w', handle d a w = Some (r, w') /\
                              locked w' = locked w).
    { destruct a; try discriminate H1; try discriminate H2; simpl; eauto. }
    destruct Hh as (r & w' & -> & Hl).
    destruct (IH r (H3 r) w') as (Ho & Hf & He). simpl.
    repeat split; [assumption | congruence |].
    constructor; [split; assumption | assumption].
Qed.

Lemma finished_run {A} (p : Prog A) (w : World) :
  finished p = true ->
  outcome (run d p w) <> Stuck /\ final (run d p w) = w /\
  events (run d p w) = [].
Proof.
  destruct p; simpl; try discriminate; repeat split; discriminate.
Qed.

Lemma critical_run {A} (p : Prog A) (w : World) :
  critical p -> locked w = true ->
  outcome (run d p w) <> Stuck /\
  locked (final (run d p w)) = false /\
  exists mid, events (run d p w) = mid ++ [Unlock] /\ Forall plain mid.
Proof.
  intro H. revert w.
  induction p as [x | v | a k IH]; intros w Hw; simpl in *;
    try contradiction.
  destruct (isUnlock a) eqn:Hu.
  - destruct a; try discriminate Hu. simpl. rewrite Hw.
    destruct (finished_run (k tt) (mkWorld false (counter w)) (H tt))
      as (Ho & Hf & He).
    simpl. rewrite Hf, He. repeat split; [assumption|].
    exists []. split; [reflexivity | constructor].
  - destruct H as [Hl Hk].
    assert (Hh : exists r w', handle d a w = Some (r, w') /\
                              locked w' = locked w).
    { destruct a; try discriminate Hl; try discriminate Hu; simpl; eauto. }
    destruct Hh as (r & w' & -> & Hlw).
    destruct (IH r (Hk r) w') as (Ho & Hf & mid & He & Hmid);
      [congruence|].
    simpl. repeat split; [assumption | assumption |].
    exists (a :: mid). rewrite He. split; [reflexivity|].
    constructor; [split; assumption | assumption].
Qed.

Lemma guarded_run {A} (p : Prog A) (w : World) :
  guarded p ->
  (locked w = false ->
   outcome (run d p w) <> Stuck /\
   locked (final (run d p w)) = false /\
   exists mid, events (run d p w) = Lock :: mid ++ [Unlock] /\
               Forall plain mid) /\
  (locked w = true -> run d p w = mkRun [] Stuck w).
Proof.
  destruct p as [x | v | a k]; simpl; try contradiction.
  intros [Hl Hk]. destruct a; try discriminate Hl. simpl. split; intros ->.
  - destruct (critical_run (k tt) (mkWorld true (counter w)) (Hk tt) eq_refl)
      as (Ho & Hf & mid & He & Hmid).
    simpl. repeat split; [assumption | assumption |].
    exists mid. rewrite He. auto.
  - reflexivity.
Qed.

(** [MutexExec] around a callback that leaves the mutex alone: the
    lock is taken first and released last, also when the callback
    panics, and the callback's return value or panic is passed on. *)
Theorem MutexExec_brackets {A} (cb : Prog A) (w : World) :
  lockFree cb -> locked w = false ->
  let r := run d cb (mkWorld true (counter w)) in
  run d (MutexExec cb) w =
  mkRun (Lock :: events r ++ [Unlock]) (outcome r)
    (mkWorld false (counter (final r))).
Proof.
  intros Hcb Hw. cbv zeta. rewrite run_MutexExec by assumption.
  destruct (lockFree_run cb (mkWorld true (counter w)) Hcb) as (Ho & Hf & _).
  unfold thenDeferred. simpl in *.
  destruct (outcome (run d cb (mkWorld true (counter w)))) eqn:E;
    simpl; rewrite ?Hf; simpl; try reflexivity.
  now contradiction Ho.
Qed.

(** [SessExec] closes its copy of the session on every way out of the
    callback, a panic included, and passes the callback's result on. *)
Theorem SessExec_closes_session {A} (cb : Prog A) (w : World) :
  outcome (run d cb w) <> Stuck ->
  run d (MongoDb.SessExec cb) w =
  mkRun (SessCopy :: events (run d cb w) ++ [SessClose])
    (outcome (run d cb w)) (final (run d cb w)).
Proof.
  intro Ho. unfold MongoDb.SessExec, MongoDb.withSession.
  rewrite run_bind, run_perform. unfold andThen. simpl.
  rewrite run_defer. unfold thenDeferred. simpl.
  destruct (outcome (run d cb w)) eqn:E; simpl; try reflexivity.
  now contradiction Ho.
Qed.

Variable c : MongoCollection.

(** A mutating operation that comes to an end on a free collection,
    by a return or by a panic, has taken the lock as its first action
    and released it as its last, has touched the lock nowhere in
    between, and leaves the collection free. *)
Theorem mutating_call_releases_lock (call : MutatingCall) (w : World) :
  locked w = false ->
  let r := run d (goroutine c call) w in
  outcome r <> Stuck ->
  locked (final r) = false /\
  exists mid, events r = Lock :: mid ++ [Unlock] /\ Forall plain mid.
Proof.
  intros Hw r _.
  exact (proj2 (proj1 (guarded_run (goroutine c call) w
                         (guarded_goroutine c call)) Hw)).
Qed.

(** The lock is not reentrant and the reads do not use it: while the
    collection is locked every mutating operation blocks before doing
    anything, whereas [Read] and [ReadAll] go through, write nothing
    and leave the lock as it is.  [ReadAll] returns the store's answer
    when its destination is the address of a slice; for any other
    destination the driver panics after the query and [ReadAll]
    returns the panic error. *)
Theorem locked_collection (w : World) :
  locked w = true ->
  (forall call, run d (goroutine c call) w = mkRun [] Stuck w) /\
  (forall entryID,
     run d (Read c entryID) w =
     mkRun [SessCopy; Mgo (MgoFindIdOne (Collection c) entryID); SessClose]
       (Returns (MongoDb.notErrNotFound
                   (d (MgoFindIdOne (Collection c) entryID)))) w) /\
  run d (ReadAll c SliceAddress) w =
  mkRun [SessCopy; Mgo (MgoFindAll (Collection c)); SessClose]
    (Returns (d (MgoFindAll (Collection c)))) w /\
  run d (ReadAll c NotSliceAddress) w =
  mkRun [SessCopy; Mgo (MgoFindAll (Collection c)); SessClose]
    (Returns (Some errPanic)) w.
Proof.
  intro Hw. split; [|split].
  - intro call.
    exact (proj2 (guarded_run (goroutine c call) w (guarded_goroutine c call))
             Hw).
  - intro entryID. apply run_Read.
  - unfold ReadAll. rewrite !run_deferRecover. split; reflexivity.
Qed.

End LockRuns.

Lemma MutexExec_brackets_witness :
  run quiet (MutexExec (callFactory (SetFactoryFunc widgets faulty) VNil)) idle
  = mkRun [Lock; Factory VNil; Unlock] (Panics (UserPanic "bad parameters"))
      idle.
Proof.
  rewrite (@MutexExec_brackets quiet _
             (callFactory (SetFactoryFunc widgets faulty) VNil) idle).
  - reflexivity.
  - apply lockFree_callFactory.
  - reflexivity.
Defined.

Lemma SessExec_closes_session_witness :
  run quiet (MongoDb.SessExec (Panic (A := unit) (UserPanic "in callback")))
    idle
  = mkRun [SessCopy; SessClose] (Panics (UserPanic "in callback")) idle.
Proof.
  rewrite (@SessExec_closes_session quiet unit
             (Panic (UserPanic "in callback")) idle).
  - reflexivity.
  - discriminate.
Defined.

Lemma mutating_call_releases_lock_witness :
  locked (final (run quiet
                   (goroutine (SetFactoryFunc widgets faulty)
                      (CallUpdate hexA VNil)) idle))
  = false.
Proof.
  refine (proj1 (@mutating_call_releases_lock quiet
                   (SetFactoryFunc widgets faulty)
                   (CallUpdate hexA VNil) idle eq_refl _)).
  discriminate.
Defined.

Lemma locked_collection_witness :
  run quiet (goroutine widgets CallDeleteAll) (mkWorld true 0)
  = mkRun [] Stuck (mkWorld true 0) /\
  run quiet (ReadAll widgets NotSliceAddress) (mkWorld true 0)
  = mkRun [SessCopy; Mgo (MgoFindAll "widgets"); SessClose]
      (Returns (Some errPanic)) (mkWorld true 0).
Proof.
  pose proof (@locked_collection quiet widgets (mkWorld true 0) eq_refl)
    as [Hblocked [_ [_ Hpanic]]].
  split; [exact (Hblocked CallDeleteAll) | exact Hpanic].
Defined.

(** ** Writes of one call *)

Section WriteCount.

Variable d : Driver.
Variable c : MongoCollection.

Lemma events_task {A} (p : Prog A) (w : World) :
  events (run d (task p) w) = events (run d p w).
Proof.
  unfold task. rewrite run_bind. unfold andThen.
  destruct (outcome (run d p w)); simpl; auto using app_nil_r.
Qed.

Lemma CreateBulk_writes_cases (ps : list params) (w : World) :
  locked w = false ->
  writes (events (run d (CreateBulk c ps) w)) = [] \/
  exists es, writes (events (run d (CreateBulk c ps) w))
             = [Mgo (insertOf c es)].
Proof.
  intro Hw. unfold CreateBulk.
  rewrite run_deferRecover, run_bind, run_MutexExec by assumption.
  destruct (run_createCore_cases d c ps (mkWorld true (counter w)))
    as (Hfin & [(es & Hes & Hr) | (Hwr & Ho)]).
  - right. exists es. rewrite Hr. unfold thenDeferred, andThen. simpl.
    unfold writes. rewrite !filter_app. fold (writes (map Factory ps)).
    rewrite writes_factory_calls. simpl.
    now destruct (d (insertOf c es)).
  - left. unfold thenDeferred, andThen. cbv zeta. rewrite Hfin.
    destruct Ho as [Ho | (v & Ho)]; rewrite Ho; simpl;
      unfold writes in *; now rewrite !filter_app, Hwr.
Qed.

Lemma Create_writes_cases (p : params) (w : World) :
  locked w = false ->
  writes (events (run d (Create c p) w)) = [] \/
  exists e, writes (events (run d (Create c p) w)) = [Mgo (insertOf c [e])].
Proof.
  intro Hw. destruct (factoryFunc c) as [f|] eqn:Hf.
  - destruct (f p) as [e|v] eqn:Hp.
    + right. exists e.
      rewrite (@run_Create_ok d c p e w Hw) by (exists f; auto).
      reflexivity.
    + left. now rewrite (@run_Create_panic d c f p v w Hw Hf Hp).
  - left. now rewrite run_Create_no_factory by assumption.
Qed.

Lemma Update_writes_cases (entryID : string) (p : params) (w : World) :
  locked w = false ->
  writes (events (run d (Update c entryID p) w)) = [] \/
  exists b x, writes (events (run d (Update c entryID p) w))
              = [Mgo (updateOf c b x)].
Proof.
  intro Hw.
  destruct (parseWith (freshId (counter w)) entryID) as [b [e|]] eqn:Hp.
  - left. now rewrite (@run_Update_rejected d c entryID p w b e Hw Hp).
  - destruct (updatePanic c p) as [v|] eqn:Hv.
    + left. exact (proj2 (@run_Update_panics d c entryID p w b v Hw Hp Hv)).
    + right. unfold updatePanic in Hv.
      destruct (factoryFunc c) as [f|] eqn:Hf; [|discriminate].
      destruct (f p) as [[x|]|v] eqn:Hx; try discriminate.
      exists b, x.
      now rewrite (@run_Update_accepted d c f entryID p w b x Hw Hp Hf Hx).
Qed.

(** Whatever its input and whatever the store answers, a mutating
    operation issues at most one write to storage. *)
Theorem mutating_call_writes_once (call : MutatingCall) (w : World) :
  locked w = false ->
  List.length (writes (events (run d (goroutine c call) w))) <= 1.
Proof.
  intro Hw.
  destruct call as [e | es | p | ps | id p | id |]; cbn [goroutine];
    rewrite events_task.
  - unfold Insert. fold (InsertBulk c [e]).
    rewrite (@run_InsertBulk d c [e] w Hw). simpl. lia.
  - rewrite (@run_InsertBulk d c es w Hw). simpl. lia.
  - destruct (Create_writes_cases p w Hw) as [-> | [e ->]]; simpl; lia.
  - destruct (CreateBulk_writes_cases ps w Hw) as [-> | [es ->]]; simpl; lia.
  - destruct (Update_writes_cases id p w Hw) as [-> | (b & x & ->)];
      simpl; lia.
  - destruct (parseWith (freshId (counter w)) id) as [b e] eqn:Hp.
    rewrite (@run_Delete_parsed d c id w b e Hw Hp).
    destruct e; simpl; lia.
  - rewrite (@run_DeleteAll d c w Hw). simpl. lia.
Qed.

End WriteCount.

Lemma mutating_call_writes_once_witness :
  List.length
    (writes (events (run quiet
                       (goroutine (SetFactoryFunc widgets named)
                          (CallCreateBulk [VString "a"; VString "b"]))
                       idle)))
  <= 1.
Proof.
  apply (@mutating_call_writes_once quiet (SetFactoryFunc widgets named)
           (CallCreateBulk [VString "a"; VString "b"]) idle).
  reflexivity.
Defined.

(** ** Update without an entry to write *)

Section UpdateEdges.

Variable d : Driver.
Variable c : MongoCollection.

(** Unlike the create family, [Update] does not test for a missing
    factory: with an id that parses and no factory installed it calls
    the nil function and panics, after releasing the lock and without
    writing. *)
Theorem Update_without_factory (entryID : string) (p : params) (w : World)
    (b : ObjectId) :
  locked w = false -> factoryFunc c = None ->
  parseWith (freshId (counter w)) entryID = (b, None) ->
  run d (Update c entryID p) w =
  mkRun [Lock; NewObjectId; Unlock] (Panics NilFuncCall)
    (mkWorld false (counter w + 1)).
Proof.
  intros Hw Hf Hp. unfold Update. rewrite run_MutexExec by exact Hw.
  rewrite run_bind, run_GetObjectIDFromString.
  unfold andThen, thenDeferred. cbn [outcome events final counter locked].
  rewrite Hp. cbn [fst snd]. unfold callFactory. rewrite Hf. reflexivity.
Qed.

(** When the factory returns the nil entry, [Update] panics on
    assigning the identity to it: nothing is written and the lock is
    released. *)
Theorem Update_nil_entry f (entryID : string) (p : params) (w : World)
    (b : ObjectId) :
  locked w = false -> factoryFunc c = Some f -> f p = FReturn None ->
  parseWith (freshId (counter w)) entryID = (b, None) ->
  run d (Update c entryID p) w =
  mkRun [Lock; NewObjectId; Factory p; Unlock] (Panics NilEntryCall)
    (mkWorld false (counter w + 1)).
Proof.
  intros Hw Hf Hx Hp. unfold Update. rewrite run_MutexExec by exact Hw.
  rewrite run_bind, run_GetObjectIDFromString.
  unfold andThen, thenDeferred. cbn [outcome events final counter locked].
  rewrite Hp. cbn [fst snd]. unfold callFactory. rewrite Hf. simpl.
  rewrite Hx. reflexivity.
Qed.

(** After calls made one after another on a free collection, the
    collection is free again, whatever the calls did, a panic
    included: every call left the lock released for the next. *)
Theorem mutating_calls_in_turn (calls : list MutatingCall) (w : World) :
  locked w = false -> locked (inTurn d c calls w) = false.
Proof.
  revert w. induction calls as [|call l IH]; intros w Hw; simpl;
    [assumption|].
  apply IH.
  exact (proj1 (proj2 (proj1 (guarded_run d (goroutine c call) w
                                (guarded_goroutine c call)) Hw))).
Qed.

End UpdateEdges.

Lemma Update_without_factory_witness :
  outcome (run quiet (Update widgets hexA VNil) idle) = Panics NilFuncCall.
Proof.
  rewrite (@Update_without_factory quiet widgets hexA VNil idle idA);
    reflexivity.
Defined.

Lemma Update_nil_entry_witness :
  outcome (run quiet (Update (SetFactoryFunc widgets (fun _ => FReturn None))
                        hexA VNil) idle)
  = Panics NilEntryCall.
Proof.
  rewrite (@Update_nil_entry quiet
             (SetFactoryFunc widgets (fun _ => FReturn None))
             (fun _ => FReturn None) hexA VNil idle idA);
    reflexivity.
Defined.

Lemma mutating_calls_in_turn_witness :
  locked (inTurn quiet (SetFactoryFunc widgets faulty)
            [CallCreate VNil; CallDelete "xyz"; CallDeleteAll] idle)
  = false.
Proof.
  exact (@mutating_calls_in_turn quiet (SetFactoryFunc widgets faulty)
           [CallCreate VNil; CallDelete "xyz"; CallDeleteAll] idle eq_refl).
Defined.
